(** * pika.codec.decode: the AMQP 0-9-1 field-value decoder

    A shallow embedding of [pika/codec/decode.py] (Python 2) and the
    properties of its decoders.

    - A Python 2 [str] is a byte string: [list byte].
    - A decoder returns [(bytes_used, value)] or raises; exceptions are
      the constructors of [exn].
    - [dict] is a [gmap] keyed by byte strings.
    - [time.gmtime] belongs to the platform and is a section variable.
    - [unicode] decodes with the default codec, ascii; [decimal] works
      under its default context (28 digits, round half even).
    - The recursion of [_embedded_value] through the compound decoders
      is bounded by the length of the buffer; the interpreter's own
      recursion limit is not part of the model. *)

From Stdlib Require Import ZArith List Bool Lia QArith.
From Stdlib Require Import Strings.Byte Strings.String Strings.Ascii.
From stdpp Require Import base option list countable gmap strings.

Set Warnings "-register-all".
Local Open Scope Z_scope.

(** ** Byte strings *)

Abbreviation bytes := (list byte).

Definition ord (b : byte) : Z := Z.of_N (Byte.to_N b).

#[global] Instance byte_eq_dec : EqDecision byte.
Proof.
  intros a b. destruct (decide (Byte.to_N a = Byte.to_N b)) as [E|E].
  - left. apply (f_equal Byte.of_N) in E.
    rewrite !Byte.of_to_N in E. congruence.
  - right. congruence.
Defined.

#[global] Instance byte_countable : Countable byte :=
  inj_countable Byte.to_N Byte.of_N Byte.of_to_N.

(** [value[lo:hi]] for non-negative [lo] and [hi]; Python clips a slice
    to the string, it never raises. *)
Definition slice (value : bytes) (lo hi : Z) : bytes :=
  take (Z.to_nat (hi - lo)) (drop (Z.to_nat lo) value).

(** [value[lo:]] *)
Definition slice_from (value : bytes) (lo : Z) : bytes :=
  drop (Z.to_nat lo) value.

(** ** Exceptions and results *)

Inductive exn : Type :=
| IndexError                     (* string index out of range *)
| struct_error                   (* struct.error: wrong buffer size *)
| UnicodeDecodeError             (* unicode() met a byte above 0x7f *)
| ValueError (msg : bytes)       (* raise ValueError(msg) *)
| gmtime_error.                  (* time.gmtime rejected the seconds *)

Inductive result (A : Type) : Type :=
| Ok (a : A)
| Raise (e : exn)
| OutOfFuel.
Arguments Ok {A} a.
Arguments Raise {A} e.
Arguments OutOfFuel {A}.

Definition bind {A B} (r : result A) (k : A -> result B) : result B :=
  match r with
  | Ok a => k a
  | Raise e => Raise e
  | OutOfFuel => OutOfFuel
  end.

Notation "'let*' p ':=' r 'in' k" := (bind r (fun p => k))
  (at level 10, p pattern, r at level 100, k at level 200).

(** ** The [struct] module, for the formats the decoder uses *)

(** Big-endian unsigned reading of a byte string (['B'], ['>H'], ['>I'],
    ['>Q']). *)
Definition be_uint (s : bytes) : Z :=
  fold_left (fun acc b => acc * 256 + ord b) s 0.

(** Big-endian two's complement reading on [w] bits (['>l'], ['>q']). *)
Definition be_int (w : Z) (s : bytes) : Z :=
  let u := be_uint s in
  if u <? 2 ^ (w - 1) then u else u - 2 ^ w.

(** [struct.unpack(fmt, s)]: [s] must hold exactly [size] bytes. *)
Definition unpack (size : nat) (s : bytes) : result bytes :=
  if Nat.eqb (length s) size then Ok s else Raise struct_error.

(** [struct.unpack_from(fmt, buf, offset)]: at least [size] bytes must
    follow [offset]. *)
Definition unpack_from (size : nat) (buf : bytes) (offset : Z)
  : result bytes :=
  if Z.of_nat size <=? Z.of_nat (length buf) - offset
  then Ok (slice buf offset (offset + Z.of_nat size))
  else Raise struct_error.

(** [value[0]], a one-character string. *)
Definition index0 (value : bytes) : result bytes :=
  match value with
  | [] => Raise IndexError
  | b :: _ => Ok [b]
  end.

(** ** The [decimal] module under its default context *)

Record Decimal : Type := mkDecimal {
  dec_sign : bool;   (* true: negative *)
  dec_int : Z;       (* coefficient, non-negative *)
  dec_exp : Z        (* power of ten *)
}.

(** Default context precision. *)
Definition prec : Z := 28.

Fixpoint ndigits_aux (fuel : nat) (c : Z) : Z :=
  match fuel with
  | O => 1
  | S fuel' => if c <? 10 then 1 else 1 + ndigits_aux fuel' (c / 10)
  end.

(** [len(str(c))] for [c >= 0]. *)
Definition ndigits (c : Z) : Z := ndigits_aux (Z.to_nat (Z.log2 c)) c.

(** [Decimal._fix]: round the coefficient half-even to [prec] digits when
    it is longer.  The exponent limits of the context (Emin, Emax) are
    far from every exponent the decoder produces and are left out. *)
Definition dec_fix (d : Decimal) : Decimal :=
  let k := ndigits (dec_int d) - prec in
  if k <=? 0 then d
  else
    let q := dec_int d / 10 ^ k in
    let r := dec_int d mod 10 ^ k in
    let up := (10 ^ k <? 2 * r) || ((10 ^ k =? 2 * r) && Z.odd q) in
    let q' := if up then q + 1 else q in
    if q' =? 10 ^ prec
    then mkDecimal (dec_sign d) (10 ^ (prec - 1)) (dec_exp d + k + 1)
    else mkDecimal (dec_sign d) q' (dec_exp d + k).

(** [Decimal(n)] for an int [n >= 0]. *)
Definition Decimal_of_int (n : Z) : Decimal := mkDecimal false n 0.

(** [Decimal(10) ** n] for an int [n <= 0]: [Decimal(1)] when [n = 0],
    otherwise the exact power [1E n]. *)
Definition Decimal_pow10 (n : Z) : Decimal :=
  if n =? 0 then mkDecimal false 1 0 else dec_fix (mkDecimal false 1 n).

(** [Decimal.__mul__] *)
Definition Decimal_mul (a b : Decimal) : Decimal :=
  dec_fix (mkDecimal (xorb (dec_sign a) (dec_sign b))
                     (dec_int a * dec_int b)
                     (dec_exp a + dec_exp b)).

(** The rational a [Decimal] stands for. *)
Definition Decimal_value (d : Decimal) : Q :=
  let m := if dec_sign d then - dec_int d else dec_int d in
  if 0 <=? dec_exp d
  then inject_Z (m * 10 ^ dec_exp d)
  else Qmake m (Z.to_pos (10 ^ (- dec_exp d))).

(** ** Text *)

(** [unicode(s)] with the default codec (ascii): every byte must be
    below 0x80. *)
Definition unicode (s : bytes) : result bytes :=
  if forallb (fun b => ord b <? 128) s then Ok s
  else Raise UnicodeDecodeError.

(** A [str] literal, as a byte string. *)
Definition str (s : string) : bytes := list_byte_of_string s.

(** ** The decoders *)

Section Decode.

(** [time.struct_time] and [time.gmtime] of the platform; [None] when
    [gmtime] rejects the seconds. *)
Variable struct_time : Type.
Variable gmtime : Z -> option struct_time.

(** Python values the decoders return. *)
Inductive val : Type :=
| VNone
| VBool (b : bool)
| VInt (n : Z)
| VFloat (bits : Z)            (* the IEEE-754 single with these 32 bits *)
| VDecimal (d : Decimal)
| VUnicode (s : bytes)
| VTime (t : struct_time)
| VList (l : list val)
| VDict (d : gmap bytes val).

(** *** Base data type decoders *)

Definition bit (value : bytes) (position : Z) : result (Z * val) :=
  let* c := index0 value in
  let* b := unpack 1 c in
  let bit_buffer := be_uint b in
  if position <? 0 then Raise (ValueError (str "negative shift count"))
  else Ok (0, VBool (negb (Z.land bit_buffer (Z.shiftl 1 position) =? 0))).

Definition boolean (value : bytes) : result (Z * val) :=
  let* c := index0 value in
  let* b := unpack_from 1 c 0 in
  Ok (1, VBool (negb (be_uint b =? 0))).

Definition decimal (value : bytes) : result (Z * val) :=
  let* c := index0 value in
  let* b := unpack 1 c in
  let decimals := be_uint b in
  let* r := unpack 4 (slice value 1 5) in
  let raw := be_uint r in
  Ok (5, VDecimal (Decimal_mul (Decimal_of_int raw)
                               (Decimal_pow10 (- decimals)))).

Definition floating_point (value : bytes) : result (Z * val) :=
  let* f := unpack_from 4 value 0 in
  Ok (4, VFloat (be_uint f)).

Definition long_int (value : bytes) : result (Z * val) :=
  let* s := unpack 4 (slice value 0 4) in
  Ok (4, VInt (be_int 32 s)).

Definition long_long_int (value : bytes) : result (Z * val) :=
  let* s := unpack 8 (slice value 0 8) in
  Ok (8, VInt (be_int 64 s)).

Definition long_string (value : bytes) : result (Z * val) :=
  let* s := unpack 4 (slice value 0 4) in
  let length := be_uint s in
  let* u := unicode (slice value 4 (length + 4)) in
  Ok (length + 4, VUnicode u).

Definition octet (value : bytes) : result (Z * val) :=
  let* c := index0 value in
  let* b := unpack 1 c in
  Ok (1, VInt (be_uint b)).

Definition short_int (value : bytes) : result (Z * val) :=
  let* s := unpack_from 2 (slice value 0 2) 0 in
  Ok (2, VInt (be_uint s)).

Definition short_string (value : bytes) : result (Z * val) :=
  let* c := index0 value in
  let* b := unpack 1 c in
  let length := be_uint b in
  let* u := unicode (slice value 1 (length + 1)) in
  Ok (length + 1, VUnicode u).

Definition timestamp (value : bytes) : result (Z * val) :=
  let* s := unpack 8 (slice value 0 8) in
  match gmtime (be_uint s) with
  | Some t => Ok (8, VTime t)
  | None => Raise gmtime_error
  end.

(** *** Compound data types

    The two [while] loops, over the decoder [_embedded_value] they call
    for each element.  Every turn moves [offset] forward by at least
    one, so [n] bounds the turns. *)

Section Compound.

Variable _embedded_value : bytes -> result (Z * val).

Fixpoint field_array_loop (n : nat) (value : bytes)
    (offset field_array_end : Z) (data : list val)
  : result (Z * val) :=
  if offset <? field_array_end then
    match n with
    | O => OutOfFuel
    | S n' =>
        let* (consumed, result) :=
          _embedded_value (slice_from value offset) in
        field_array_loop n' value (offset + (consumed + 1))
                         field_array_end (data ++ [result])
    end
  else Ok (offset, VList data).

Definition field_array_with (value : bytes) : result (Z * val) :=
  let* s := unpack 4 (slice value 0 4) in
  let length := be_uint s in
  let offset := 4 in
  let field_array_end := offset + length in
  field_array_loop (Z.to_nat length) value offset field_array_end [].

Fixpoint field_table_loop (n : nat) (value : bytes)
    (offset field_table_end : Z) (data : gmap bytes val)
  : result (Z * val) :=
  if offset <? field_table_end then
    match n with
    | O => OutOfFuel
    | S n' =>
        let* k := unpack_from 1 value offset in
        let key_length := be_uint k in
        let offset1 := offset + 1 in
        let key := slice value offset1 (offset1 + key_length) in
        let offset2 := offset1 + key_length in
        let* (consumed, result) :=
          _embedded_value (slice_from value offset2) in
        field_table_loop n' value (offset2 + (consumed + 1))
                         field_table_end (<[key := result]> data)
    end
  else Ok (field_table_end, VDict data).

Definition field_table_with (value : bytes) : result (Z * val) :=
  let* s := unpack 4 (slice value 0 4) in
  let length := be_uint s in
  let offset := 4 in
  let field_table_end := offset + length in
  field_table_loop (Z.to_nat length) value offset field_table_end ∅.

End Compound.

(** [value[0] == c] *)
Definition tag_is (b : byte) (c : byte) : bool := bool_decide (b = c).

(** [_embedded_value]; [fuel] bounds the nesting of compound values. *)
Fixpoint embedded_value_fuel (fuel : nat) (value : bytes)
  : result (Z * val) :=
  match fuel with
  | O => OutOfFuel
  | S fuel' =>
      match value with
      | [] => Ok (0, VNone)
      | b :: rest =>
          if tag_is b "A" then
            field_array_with (embedded_value_fuel fuel') rest
          else if tag_is b "D" then decimal rest
          else if tag_is b "f" then floating_point rest
          else if tag_is b "F" then
            field_table_with (embedded_value_fuel fuel') rest
          else if tag_is b "I" then long_int rest
          else if tag_is b "L" then long_long_int rest
          else if tag_is b "t" then boolean rest
          else if tag_is b "T" then timestamp rest
          else if tag_is b "s" then short_string rest
          else if tag_is b "S" then long_string rest
          else if tag_is b "U" then short_int rest
          else if tag_is b x00 then Ok (0, VNone)
          else Raise (ValueError (str "Unknown type: " ++ [b]))
      end
  end.

(** A nested value lies in a strictly shorter string, so the length of
    the string bounds the nesting. *)
Definition _embedded_value (value : bytes) : result (Z * val) :=
  embedded_value_fuel (S (length value)) value.

Definition field_array (value : bytes) : result (Z * val) :=
  field_array_with _embedded_value value.

Definition field_table (value : bytes) : result (Z * val) :=
  field_table_with _embedded_value value.

(** [by_type(value, data_type, offset=0)] *)
Definition by_type (value : bytes) (data_type : string) (offset : Z)
  : result (Z * val) :=
  if String.eqb data_type "bit" then bit value offset
  else if String.eqb data_type "boolean" then boolean value
  else if String.eqb data_type "long" then long_int value
  else if String.eqb data_type "longlong" then long_long_int value
  else if String.eqb data_type "longstr" then long_string value
  else if String.eqb data_type "octet" then octet value
  else if String.eqb data_type "short" then short_int value
  else if String.eqb data_type "shortstr" then short_string value
  else if String.eqb data_type "table" then field_table value
  else if String.eqb data_type "timestamp" then timestamp value
  else Raise (ValueError (str "Unknown type: " ++ value)).

End Decode.

Arguments VNone {struct_time}.
Arguments VBool {struct_time} b.
Arguments VInt {struct_time} n.
Arguments VFloat {struct_time} bits.
Arguments VDecimal {struct_time} d.
Arguments VUnicode {struct_time} s.
Arguments VTime {struct_time} t.
Arguments VList {struct_time} l.
Arguments VDict {struct_time} d.
Arguments bit {struct_time} value position.
Arguments boolean {struct_time} value.
Arguments decimal {struct_time} value.
Arguments floating_point {struct_time} value.
Arguments long_int {struct_time} value.
Arguments long_long_int {struct_time} value.
Arguments long_string {struct_time} value.
Arguments octet {struct_time} value.
Arguments short_int {struct_time} value.
Arguments short_string {struct_time} value.
Arguments timestamp {struct_time} gmtime value.
Arguments field_array_loop {struct_time} _embedded_value n value
  offset field_array_end data.
Arguments field_array_with {struct_time} _embedded_value value.
Arguments field_table_loop {struct_time} _embedded_value n value
  offset field_table_end data.
Arguments field_table_with {struct_time} _embedded_value value.
Arguments embedded_value_fuel {struct_time} gmtime fuel value.
Arguments _embedded_value {struct_time} gmtime value.
Arguments field_array {struct_time} gmtime value.
Arguments field_table {struct_time} gmtime value.
Arguments by_type {struct_time} gmtime value data_type offset.

(** ** The wire format

    The field-value encoding the decoder reads, as a syntax tree with its
    encoder.  [encode] gives the tagged bytes of a value, [denote] the
    Python value it stands for. *)

Definition byte_of (z : Z) : byte :=
  default x00 (Byte.of_N (Z.to_N z)).

(** [k] bytes, most significant first. *)
Fixpoint be_bytes (k : nat) (n : Z) : bytes :=
  match k with
  | O => []
  | S k' => be_bytes k' (n / 256) ++ [byte_of (n mod 256)]
  end.

Inductive wire : Type :=
| WArray (items : list wire)
| WDecimal (scale mantissa : Z)
| WFloat (bits : Z)
| WTable (entries : list (bytes * wire))
| WLong (n : Z)                  (* 'I', signed 32 bits *)
| WLongLong (n : Z)              (* 'L', signed 64 bits *)
| WBoolean (b : byte)            (* 't' *)
| WTimestamp (secs : Z)
| WShortStr (s : bytes)
| WLongStr (s : bytes)
| WShort (n : Z)                 (* 'U', unsigned 16 bits *)
| WNull.

(** One table entry: key length, key, tagged value. *)
Definition encode_entry (encode : wire -> bytes) (e : bytes * wire)
  : bytes :=
  byte_of (Z.of_nat (length e.1)) :: e.1 ++ encode e.2.

Fixpoint encode (w : wire) : bytes :=
  match w with
  | WArray items =>
      let body := concat (map encode items) in
      "A"%byte :: be_bytes 4 (Z.of_nat (length body)) ++ body
  | WDecimal scale mantissa =>
      "D"%byte :: byte_of scale :: be_bytes 4 mantissa
  | WFloat bits => "f"%byte :: be_bytes 4 bits
  | WTable entries =>
      let body := concat (map (encode_entry encode) entries) in
      "F"%byte :: be_bytes 4 (Z.of_nat (length body)) ++ body
  | WLong n => "I"%byte :: be_bytes 4 (n mod 2 ^ 32)
  | WLongLong n => "L"%byte :: be_bytes 8 (n mod 2 ^ 64)
  | WBoolean b => "t"%byte :: [b]
  | WTimestamp secs => "T"%byte :: be_bytes 8 secs
  | WShortStr s => "s"%byte :: byte_of (Z.of_nat (length s)) :: s
  | WLongStr s => "S"%byte :: be_bytes 4 (Z.of_nat (length s)) ++ s
  | WShort n => "U"%byte :: be_bytes 2 n
  | WNull => [x00]
  end.

(** The bytes of an array region and of a table region. *)
Definition encode_items (items : list wire) : bytes :=
  concat (map encode items).

Definition encode_entries (entries : list (bytes * wire)) : bytes :=
  concat (map (encode_entry encode) entries).

Definition is_ascii (s : bytes) : bool :=
  forallb (fun b => ord b <? 128) s.

Section Wire.

Variable struct_time : Type.
Variable gmtime : Z -> option struct_time.

(** Well-formed: every number fits its field, every length fits its
    prefix, text is ascii, and the platform accepts the timestamp. *)
Fixpoint wf (w : wire) : bool :=
  match w with
  | WArray items =>
      forallb wf items
      && (Z.of_nat (length (concat (map encode items))) <? 2 ^ 32)
  | WDecimal scale mantissa =>
      (0 <=? scale) && (scale <? 256)
      && (0 <=? mantissa) && (mantissa <? 2 ^ 32)
  | WFloat bits => (0 <=? bits) && (bits <? 2 ^ 32)
  | WTable entries =>
      forallb (fun e => (Z.of_nat (length e.1) <? 256) && wf e.2) entries
      && (Z.of_nat (length (concat (map (encode_entry encode) entries)))
          <? 2 ^ 32)
  | WLong n => (- 2 ^ 31 <=? n) && (n <? 2 ^ 31)
  | WLongLong n => (- 2 ^ 63 <=? n) && (n <? 2 ^ 63)
  | WBoolean _ => true
  | WTimestamp secs =>
      (0 <=? secs) && (secs <? 2 ^ 64)
      && bool_decide (is_Some (gmtime secs))
  | WShortStr s => (Z.of_nat (length s) <? 256) && is_ascii s
  | WLongStr s => (Z.of_nat (length s) <? 2 ^ 32) && is_ascii s
  | WShort n => (0 <=? n) && (n <? 2 ^ 16)
  | WNull => true
  end.

Definition wf_entry (e : bytes * wire) : bool :=
  (Z.of_nat (length e.1) <? 256) && wf e.2.

(** The mapping of a list of entries: inserted in order, a later key
    overwriting an earlier one. *)
Definition insert_all {V} (kvs : list (bytes * V)) (m : gmap bytes V)
  : gmap bytes V :=
  fold_left (fun m kv => <[kv.1 := kv.2]> m) kvs m.

Fixpoint denote (w : wire) : val struct_time :=
  match w with
  | WArray items => VList (map denote items)
  | WDecimal scale mantissa => VDecimal (mkDecimal false mantissa (- scale))
  | WFloat bits => VFloat bits
  | WTable entries =>
      VDict (insert_all (map (fun e => (e.1, denote e.2)) entries) ∅)
  | WLong n => VInt n
  | WLongLong n => VInt n
  | WBoolean b => VBool (negb (ord b =? 0))
  | WTimestamp secs =>
      match gmtime secs with
      | Some t => VTime t
      | None => VNone
      end
  | WShortStr s => VUnicode s
  | WLongStr s => VUnicode s
  | WShort n => VInt n
  | WNull => VNone
  end.

End Wire.

(** The value of the last pair with key [k], if there is one. *)
Definition lookup_last {V} (k : bytes) (kvs : list (bytes * V)) : option V :=
  snd <$> find (fun kv => bool_decide (kv.1 = k)) (rev kvs).

Arguments wf {struct_time} gmtime w.
Arguments wf_entry {struct_time} gmtime e.
Arguments denote {struct_time} gmtime w.

(** ** A sample platform

    [time.gmtime] as the proleptic Gregorian calendar in UTC, for the
    worked examples.  Seconds whose year, counted from 1900, does not
    fit a C [int] are rejected, as the C library does on a 64-bit
    system: the last second accepted is the last of the year
    2147485547. *)

Record tm : Type := mkTm {
  tm_year : Z; tm_mon : Z; tm_mday : Z;
  tm_hour : Z; tm_min : Z; tm_sec : Z;
  tm_wday : Z; tm_yday : Z; tm_isdst : Z
}.

Definition is_leap (y : Z) : bool :=
  ((y mod 4 =? 0) && negb (y mod 100 =? 0)) || (y mod 400 =? 0).

Definition gmtime_utc (secs : Z) : option tm :=
  if (secs <? 0) || (67768036191676799 <? secs) then None
  else
    let days := secs / 86400 in
    let rem := secs mod 86400 in
    let z := days + 719468 in
    let era := z / 146097 in
    let doe := z - era * 146097 in
    let yoe := (doe - doe / 1460 + doe / 36524 - doe / 146096) / 365 in
    let doy := doe - (365 * yoe + yoe / 4 - yoe / 100) in
    let mp := (5 * doy + 2) / 153 in
    let d := doy - (153 * mp + 2) / 5 + 1 in
    let m := if mp <? 10 then mp + 3 else mp - 9 in
    let y := yoe + era * 400 + (if m <=? 2 then 1 else 0) in
    let yday :=
      if m <=? 2 then doy - 305
      else doy + 60 + (if is_leap y then 1 else 0) in
    Some (mkTm y m d (rem / 3600) (rem mod 3600 / 60) (rem mod 60)
               ((days + 3) mod 7) yday 0).

(** Byte strings of the examples, written as numbers. *)
Definition bytes_of (l : list Z) : bytes := map byte_of l.

(** ** The table of methods *)

Section Methods.

Variable struct_time : Type.
Variable gmtime : Z -> option struct_time.

(** A decoder held by [METHODS]: [bit] takes the buffer and a position,
    the others the buffer alone. *)
Inductive method : Type :=
| Positional (f : bytes -> Z -> result (Z * val struct_time))
| Plain (f : bytes -> result (Z * val struct_time)).

(** The module's dict [METHODS], key for key. *)
Definition METHODS : gmap string method :=
  list_to_map
    [("bit", Positional bit);
     ("boolen", Plain boolean);
     ("long", Plain long_int);
     ("longlong", Plain long_long_int);
     ("longstr", Plain long_string);
     ("octet", Plain octet);
     ("short", Plain short_int);
     ("shortstr", Plain short_string);
     ("table", Plain (field_table gmtime));
     ("timestamp", Plain (timestamp gmtime))]%string.

End Methods.

Arguments Positional {struct_time} f.
Arguments Plain {struct_time} f.
Arguments METHODS {struct_time} gmtime.

(** ** The turns of the array loop

    The turns the [while] loop of [field_array] takes from [offset], as
    the list of what each turn decoded: a turn starts below the end [e],
    decodes one element at the offset, which gives [(consumed, result)],
    and moves on by [consumed + 1]; after the last turn the offset is at
    [e] or beyond. *)
Fixpoint array_turns {A} (ev : bytes -> result (Z * A)) (value : bytes)
    (e offset : Z) (turns : list (Z * A)) : Prop :=
  match turns with
  | [] => e <= offset
  | t :: turns' =>
      offset < e
      /\ ev (slice_from value offset) = Ok t
      /\ array_turns ev value e (offset + (t.1 + 1)) turns'
  end.

(** The offset after the turns. *)
Definition stop_offset {A} (offset : Z) (turns : list (Z * A)) : Z :=
  fold_left (fun o t => o + (t.1 + 1)) turns offset.

(** Data of the worked examples. *)
Definition two_texts : list wire :=
  [WShortStr (str "hi"); WShortStr (str "abc")].

Definition repeated_key : list (bytes * wire) :=
  [(str "a", WLong 1); (str "b", WShortStr (str "x")); (str "a", WLong 2)].

(** The type tags [_embedded_value] knows and the type names [by_type]
    knows. *)
Definition type_tags : list byte :=
  ["A"; "D"; "f"; "F"; "I"; "L"; "t"; "T"; "s"; "S"; "U"; x00]%byte.

Definition type_names : list string :=
  ["bit"; "boolean"; "long"; "longlong"; "longstr"; "octet"; "short";
   "shortstr"; "table"; "timestamp"]%string.

(** * Properties *)

(** ** Bytes and big-endian numbers *)

Lemma ord_bound (b : byte) : 0 <= ord b < 256.
Proof.
  unfold ord. pose proof (Byte.to_N_bounded b). lia.
Qed.

Lemma ord_byte_of (z : Z) : 0 <= z < 256 -> ord (byte_of z) = z.
Proof.
  intros Hz. unfold byte_of, ord.
  destruct (Byte.of_N (Z.to_N z)) as [b|] eqn:E; simpl.
  - apply Byte.to_of_N in E. lia.
  - apply Byte.of_N_None_iff in E. lia.
Qed.

Lemma be_uint_snoc (s : bytes) (b : byte) :
  be_uint (s ++ [b]) = be_uint s * 256 + ord b.
Proof.
  unfold be_uint. now rewrite fold_left_app.
Qed.

Lemma be_uint_bound (s : bytes) :
  0 <= be_uint s < 256 ^ Z.of_nat (length s).
Proof.
  induction s as [|b s IH] using rev_ind.
  - cbn. lia.
  - rewrite be_uint_snoc, length_app, Nat2Z.inj_add. cbn [length].
    rewrite Z.pow_add_r by lia. change (256 ^ Z.of_nat 1) with 256.
    pose proof (ord_bound b). nia.
Qed.

Lemma length_be_bytes (k : nat) (n : Z) : length (be_bytes k n) = k.
Proof.
  revert n. induction k as [|k IH]; intros n; cbn [be_bytes].
  - reflexivity.
  - rewrite length_app, IH. cbn. lia.
Qed.

Lemma be_uint_be_bytes (k : nat) (n : Z) :
  0 <= n < 256 ^ Z.of_nat k -> be_uint (be_bytes k n) = n.
Proof.
  revert n. induction k as [|k IH]; intros n Hn.
  - cbn in *. lia.
  - cbn [be_bytes]. rewrite be_uint_snoc.
    rewrite Nat2Z.inj_succ, Z.pow_succ_r in Hn by lia.
    rewrite IH, ord_byte_of.
    + pose proof (Z.div_mod n 256). lia.
    + apply Z.mod_pos_bound. lia.
    + split.
      * apply Z.div_pos; lia.
      * apply Z.div_lt_upper_bound; lia.
Qed.

Lemma be_uint_4_bound (s : bytes) :
  length s = 4%nat -> 0 <= be_uint s < 2 ^ 32.
Proof.
  intros H. pose proof (be_uint_bound s) as B. rewrite H in B.
  change (256 ^ Z.of_nat 4) with (2 ^ 32) in B. exact B.
Qed.

(** ** Slices *)

Lemma slice_0 (value : bytes) (n : Z) :
  slice value 0 n = take (Z.to_nat n) value.
Proof.
  unfold slice. rewrite Z.sub_0_r. reflexivity.
Qed.

Lemma length_slice (value : bytes) (lo hi : Z) :
  0 <= lo <= hi -> hi <= Z.of_nat (length value) ->
  length (slice value lo hi) = Z.to_nat (hi - lo).
Proof.
  intros H1 H2. unfold slice. rewrite length_take, length_drop. lia.
Qed.

Lemma slice_prefix (p rest : bytes) (n : Z) :
  n = Z.of_nat (length p) -> slice (p ++ rest) 0 n = p.
Proof.
  intros ->. rewrite slice_0, Nat2Z.id. apply take_app_length.
Qed.

Lemma slice_mid (p body rest : bytes) (lo hi : Z) :
  lo = Z.of_nat (length p) -> hi = lo + Z.of_nat (length body) ->
  slice (p ++ body ++ rest) lo hi = body.
Proof.
  intros -> ->. unfold slice.
  replace (Z.of_nat (length p) + Z.of_nat (length body)
           - Z.of_nat (length p)) with (Z.of_nat (length body)) by lia.
  rewrite !Nat2Z.id, drop_app_length. apply take_app_length.
Qed.

Lemma slice_after_head (b : byte) (body rest : bytes) (hi : Z) :
  hi = Z.of_nat (length body) + 1 ->
  slice (b :: body ++ rest) 1 hi = body.
Proof.
  intros ->. apply (slice_mid [b] body rest); cbn [length]; lia.
Qed.

Lemma slice_clip (p body : bytes) (lo hi : Z) :
  lo = Z.of_nat (length p) -> Z.of_nat (length body) <= hi - lo ->
  slice (p ++ body) lo hi = body.
Proof.
  intros -> H. unfold slice. rewrite Nat2Z.id, drop_app_length.
  apply take_ge. lia.
Qed.

Lemma slice_from_app (p rest : bytes) (o : Z) :
  o = Z.of_nat (length p) -> slice_from (p ++ rest) o = rest.
Proof.
  intros ->. unfold slice_from. rewrite Nat2Z.id. apply drop_app_length.
Qed.

Lemma slice_at (value p body rest : bytes) (lo hi : Z) :
  value = p ++ body ++ rest ->
  lo = Z.of_nat (length p) -> hi = lo + Z.of_nat (length body) ->
  slice value lo hi = body.
Proof.
  intros ->. apply slice_mid.
Qed.

Lemma slice_from_at (value p rest : bytes) (o : Z) :
  value = p ++ rest -> o = Z.of_nat (length p) -> slice_from value o = rest.
Proof.
  intros ->. apply slice_from_app.
Qed.

Lemma unpack_from_byte (value p : bytes) (b : byte) (rest : bytes) :
  value = p ++ b :: rest ->
  unpack_from 1 value (Z.of_nat (length p)) = Ok [b].
Proof.
  intros ->. unfold unpack_from. rewrite length_app. cbn [length].
  destruct (Z.leb_spec (Z.of_nat 1)
              (Z.of_nat (length p + S (length rest))
               - Z.of_nat (length p))); [|lia].
  change (p ++ b :: rest) with (p ++ [b] ++ rest).
  rewrite slice_mid by (cbn [length]; lia). reflexivity.
Qed.

Lemma be_uint_1 (b : byte) : be_uint [b] = ord b.
Proof. reflexivity. Qed.

Lemma unicode_ascii (s : bytes) : is_ascii s = true -> unicode s = Ok s.
Proof.
  unfold unicode, is_ascii. now intros ->.
Qed.

Lemma unicode_not_ascii (s : bytes) :
  is_ascii s = false -> unicode s = Raise UnicodeDecodeError.
Proof.
  unfold unicode, is_ascii. now intros ->.
Qed.

Lemma length_slice_0_short (value : bytes) (n : nat) :
  (length value < n)%nat -> (length (slice value 0 (Z.of_nat n)) < n)%nat.
Proof.
  intros H. rewrite slice_0, length_take. lia.
Qed.

Lemma unpack_from_short (size : nat) (buf : bytes) :
  (length buf < size)%nat -> unpack_from size buf 0 = Raise struct_error.
Proof.
  intros H. unfold unpack_from.
  destruct (Z.leb_spec (Z.of_nat size) (Z.of_nat (length buf) - 0));
    [lia | reflexivity].
Qed.

Lemma unpack_from_exact (size : nat) (s : bytes) :
  length s = size -> unpack_from size s 0 = Ok s.
Proof.
  intros H. unfold unpack_from.
  destruct (Z.leb_spec (Z.of_nat size) (Z.of_nat (length s) - 0)); [|lia].
  rewrite slice_0, Z.add_0_l, Nat2Z.id, take_ge by lia. reflexivity.
Qed.

Lemma unpack_from_prefix (size : nat) (p rest : bytes) :
  length p = size -> unpack_from size (p ++ rest) 0 = Ok p.
Proof.
  intros H. unfold unpack_from. rewrite length_app.
  destruct (Z.leb_spec (Z.of_nat size)
              (Z.of_nat (length p + length rest) - 0)); [|lia].
  rewrite slice_prefix by lia. reflexivity.
Qed.

Lemma unpack_exact (size : nat) (s : bytes) :
  length s = size -> unpack size s = Ok s.
Proof.
  intros H. unfold unpack. now rewrite H, Nat.eqb_refl.
Qed.

Lemma unpack_short (size : nat) (s : bytes) :
  (length s < size)%nat -> unpack size s = Raise struct_error.
Proof.
  intros H. unfold unpack.
  destruct (Nat.eqb_spec (length s) size); [lia | reflexivity].
Qed.

(** ** Decimal arithmetic stays exact on the decoder's operands *)

Lemma ndigits_aux_le (fuel : nat) (c k : Z) :
  1 <= k -> 0 <= c < 10 ^ k -> ndigits_aux fuel c <= k.
Proof.
  revert c k. induction fuel as [|fuel IH]; intros c k Hk Hc;
    cbn [ndigits_aux]; [lia|].
  destruct (Z.ltb_spec c 10); [lia|].
  assert (2 <= k).
  { destruct (Z.eq_dec k 1) as [->|]; [|lia]. cbn in Hc. lia. }
  assert (ndigits_aux fuel (c / 10) <= k - 1); [|lia].
  apply IH; [lia|]. split.
  - apply Z.div_pos; lia.
  - apply Z.div_lt_upper_bound; [lia|].
    rewrite <- Z.pow_succ_r by lia. replace (Z.succ (k - 1)) with k by lia.
    lia.
Qed.

Lemma dec_fix_small (d : Decimal) :
  0 <= dec_int d < 10 ^ prec -> dec_fix d = d.
Proof.
  intros H. unfold dec_fix.
  pose proof (ndigits_aux_le (Z.to_nat (Z.log2 (dec_int d)))
                (dec_int d) prec) as B.
  unfold ndigits. cbv zeta.
  destruct (Z.leb_spec
    (ndigits_aux (Z.to_nat (Z.log2 (dec_int d))) (dec_int d) - prec) 0)
    as [|Hgt]; [reflexivity|].
  unfold prec in *. lia.
Qed.

Lemma Decimal_pow10_exact (n : Z) :
  n <= 0 -> Decimal_pow10 n = mkDecimal false 1 n.
Proof.
  intros Hn. unfold Decimal_pow10.
  destruct (Z.eqb_spec n 0) as [->|]; [reflexivity|].
  apply dec_fix_small. cbn [dec_int]. unfold prec.
  split; [lia | reflexivity].
Qed.

Lemma Decimal_mul_exact (raw n : Z) :
  0 <= raw < 2 ^ 32 ->
  Decimal_mul (Decimal_of_int raw) (mkDecimal false 1 n)
  = mkDecimal false raw n.
Proof.
  intros H. unfold Decimal_mul, Decimal_of_int. cbn.
  rewrite Z.mul_1_r. apply dec_fix_small. cbn [dec_int]. unfold prec.
  assert (2 ^ 32 < 10 ^ 28) by reflexivity. lia.
Qed.

(** ** The loops and the nesting bound *)

Section Properties.

Variable struct_time : Type.
Variable gmtime : Z -> option struct_time.

Implicit Types (value rest : bytes) (v : val struct_time).
Implicit Types ev : bytes -> result (Z * val struct_time).

(** The loops only look at what their element decoder returns on the
    tails of [value]. *)
Lemma field_array_loop_ext ev1 ev2 n value offset e data :
  (forall o, ev1 (slice_from value o) = ev2 (slice_from value o)) ->
  field_array_loop ev1 n value offset e data
  = field_array_loop ev2 n value offset e data.
Proof.
  intros H. revert offset data.
  induction n as [|n IH]; intros offset data; cbn [field_array_loop].
  - reflexivity.
  - destruct (offset <? e); [|reflexivity].
    rewrite H. destruct (ev2 (slice_from value offset)) as [[c r]| |];
      cbn [bind]; auto.
Qed.

Lemma field_table_loop_ext ev1 ev2 n value offset e data :
  (forall o, ev1 (slice_from value o) = ev2 (slice_from value o)) ->
  field_table_loop ev1 n value offset e data
  = field_table_loop ev2 n value offset e data.
Proof.
  intros H. revert offset data.
  induction n as [|n IH]; intros offset data; cbn [field_table_loop].
  - reflexivity.
  - destruct (offset <? e); [|reflexivity].
    destruct (unpack_from 1 value offset) as [k| |]; cbn [bind]; auto.
    rewrite H.
    destruct (ev2 _) as [[c r]| |]; cbn [bind]; auto.
Qed.

(** What a loop returns when it returns. *)
Lemma field_array_loop_ok ev n value offset e data c v :
  field_array_loop ev n value offset e data = Ok (c, v) ->
  e <= c /\ exists l, v = VList l.
Proof.
  revert offset data.
  induction n as [|n IH]; intros offset data; cbn [field_array_loop].
  - destruct (Z.ltb_spec offset e); [discriminate|].
    intros [= <- <-]. eauto with lia.
  - destruct (Z.ltb_spec offset e).
    + destruct (ev _) as [[c' r]| |]; cbn [bind]; try discriminate.
      apply IH.
    + intros [= <- <-]. eauto with lia.
Qed.

Lemma field_table_loop_ok ev n value offset e data c v :
  field_table_loop ev n value offset e data = Ok (c, v) ->
  c = e /\ exists d, v = VDict d.
Proof.
  revert offset data.
  induction n as [|n IH]; intros offset data; cbn [field_table_loop].
  - destruct (offset <? e); [discriminate|].
    intros [= <- <-]. eauto.
  - destruct (offset <? e).
    + destruct (unpack_from 1 value offset) as [k| |]; cbn [bind];
        try discriminate.
      destruct (ev _) as [[c' r]| |]; cbn [bind]; try discriminate.
      apply IH.
    + intros [= <- <-]. eauto.
Qed.

Ltac by_tag :=
  unfold tag_is; repeat case_bool_decide; subst.

(** Consumed counts are never negative. *)
Lemma embedded_value_fuel_nonneg fuel value c v :
  embedded_value_fuel gmtime fuel value = Ok (c, v) -> 0 <= c.
Proof.
  destruct fuel as [|fuel]; cbn [embedded_value_fuel]; [discriminate|].
  destruct value as [|b rest]; [intros [= <- _]; lia|].
  by_tag.
  - unfold field_array_with.
    destruct (unpack 4 (slice rest 0 4)) as [s| |]; cbn [bind];
      try discriminate.
    intros Hl%field_array_loop_ok. pose proof (be_uint_bound s). lia.
  - unfold decimal.
    repeat (destruct (_ : result bytes); cbn [bind]; try discriminate).
    intros [= <- _]. lia.
  - unfold floating_point.
    repeat (destruct (_ : result bytes); cbn [bind]; try discriminate).
    intros [= <- _]. lia.
  - unfold field_table_with.
    destruct (unpack 4 (slice rest 0 4)) as [s| |]; cbn [bind];
      try discriminate.
    intros Hl%field_table_loop_ok. pose proof (be_uint_bound s). lia.
  - unfold long_int.
    repeat (destruct (_ : result bytes); cbn [bind]; try discriminate).
    intros [= <- _]. lia.
  - unfold long_long_int.
    repeat (destruct (_ : result bytes); cbn [bind]; try discriminate).
    intros [= <- _]. lia.
  - unfold boolean.
    repeat (destruct (_ : result bytes); cbn [bind]; try discriminate).
    intros [= <- _]. lia.
  - unfold timestamp.
    repeat (destruct (_ : result bytes); cbn [bind]; try discriminate).
    destruct (gmtime _); try discriminate.
    intros [= <- _]. lia.
  - unfold short_string.
    destruct (index0 rest) as [i| |]; cbn [bind]; try discriminate.
    destruct (unpack 1 i) as [s| |]; cbn [bind]; try discriminate.
    destruct (unicode _); cbn [bind]; try discriminate.
    intros [= <- _]. pose proof (be_uint_bound s). lia.
  - unfold long_string.
    destruct (unpack 4 _) as [s| |]; cbn [bind]; try discriminate.
    destruct (unicode _); cbn [bind]; try discriminate.
    intros [= <- _]. pose proof (be_uint_bound s). lia.
  - unfold short_int.
    repeat (destruct (_ : result bytes); cbn [bind]; try discriminate).
    intros [= <- _]. lia.
  - intros [= <- _]. lia.
  - discriminate.
Qed.

(** Fuel above the length of the string is all the same. *)
Lemma embedded_value_fuel_indep f1 f2 value :
  (length value < f1)%nat -> (length value < f2)%nat ->
  embedded_value_fuel gmtime f1 value = embedded_value_fuel gmtime f2 value.
Proof.
  revert f2 value. induction f1 as [|f1 IH]; intros f2 value H1 H2;
    [lia|].
  destruct f2 as [|f2]; [lia|]. cbn [embedded_value_fuel].
  destruct value as [|b rest]; [reflexivity|]. cbn [length] in *.
  assert (forall o,
    embedded_value_fuel gmtime f1 (slice_from rest o)
    = embedded_value_fuel gmtime f2 (slice_from rest o)) as E.
  { intros o. apply IH; unfold slice_from; rewrite length_drop; lia. }
  by_tag; try reflexivity.
  - unfold field_array_with.
    destruct (unpack 4 _); cbn [bind]; auto using field_array_loop_ext.
  - unfold field_table_with.
    destruct (unpack 4 _); cbn [bind]; auto using field_table_loop_ext.
Qed.

Lemma field_array_fuel f value :
  (length value < f)%nat ->
  field_array_with (embedded_value_fuel gmtime f) value
  = field_array gmtime value.
Proof.
  intros H. unfold field_array, field_array_with.
  destruct (unpack 4 _); cbn [bind]; auto.
  apply field_array_loop_ext. intros o. unfold _embedded_value.
  apply embedded_value_fuel_indep; unfold slice_from;
    rewrite ?length_drop; lia.
Qed.

Lemma field_table_fuel f value :
  (length value < f)%nat ->
  field_table_with (embedded_value_fuel gmtime f) value
  = field_table gmtime value.
Proof.
  intros H. unfold field_table, field_table_with.
  destruct (unpack 4 _); cbn [bind]; auto.
  apply field_table_loop_ext. intros o. unfold _embedded_value.
  apply embedded_value_fuel_indep; unfold slice_from;
    rewrite ?length_drop; lia.
Qed.

Lemma embedded_value_fuel_cons fuel b rest :
  embedded_value_fuel gmtime (S fuel) (b :: rest) =
  if tag_is b "A" then
    field_array_with (embedded_value_fuel gmtime fuel) rest
  else if tag_is b "D" then decimal rest
  else if tag_is b "f" then floating_point rest
  else if tag_is b "F" then
    field_table_with (embedded_value_fuel gmtime fuel) rest
  else if tag_is b "I" then long_int rest
  else if tag_is b "L" then long_long_int rest
  else if tag_is b "t" then boolean rest
  else if tag_is b "T" then timestamp gmtime rest
  else if tag_is b "s" then short_string rest
  else if tag_is b "S" then long_string rest
  else if tag_is b "U" then short_int rest
  else if tag_is b x00 then Ok (0, VNone)
  else Raise (ValueError (str "Unknown type: " ++ [b])).
Proof. reflexivity. Qed.

(** The body of [_embedded_value], as the source has it. *)
Lemma _embedded_value_eq value :
  _embedded_value gmtime value =
  match value with
  | [] => Ok (0, VNone)
  | b :: rest =>
      if tag_is b "A" then field_array gmtime rest
      else if tag_is b "D" then decimal rest
      else if tag_is b "f" then floating_point rest
      else if tag_is b "F" then field_table gmtime rest
      else if tag_is b "I" then long_int rest
      else if tag_is b "L" then long_long_int rest
      else if tag_is b "t" then boolean rest
      else if tag_is b "T" then timestamp gmtime rest
      else if tag_is b "s" then short_string rest
      else if tag_is b "S" then long_string rest
      else if tag_is b "U" then short_int rest
      else if tag_is b x00 then Ok (0, VNone)
      else Raise (ValueError (str "Unknown type: " ++ [b]))
  end.
Proof.
  unfold _embedded_value. destruct value as [|b rest]; [reflexivity|].
  cbn [length]. rewrite embedded_value_fuel_cons.
  rewrite field_array_fuel, field_table_fuel by lia. reflexivity.
Qed.

(** *** The bounds are enough: no decoder runs out of fuel *)

Ltac primitive_total :=
  unfold bit, boolean, decimal, floating_point, long_int, long_long_int,
    long_string, octet, short_int, short_string, timestamp, index0,
    unpack, unpack_from, unicode, bind;
  repeat case_match; discriminate.

Lemma field_array_loop_total ev n value offset e data :
  (forall o, ev (slice_from value o) <> OutOfFuel) ->
  (forall x c v, ev x = Ok (c, v) -> 0 <= c) ->
  (Z.to_nat (e - offset) <= n)%nat ->
  field_array_loop ev n value offset e data <> OutOfFuel.
Proof.
  intros Hev Hc. revert offset data.
  induction n as [|n IH]; intros offset data Hn; cbn [field_array_loop];
    destruct (Z.ltb_spec offset e); try discriminate; try lia.
  specialize (Hev offset).
  destruct (ev (slice_from value offset)) as [[c r]| |] eqn:E;
    cbn [bind]; try discriminate; try congruence.
  apply Hc in E. apply IH. lia.
Qed.

Lemma field_table_loop_total ev n value offset e data :
  (forall o, ev (slice_from value o) <> OutOfFuel) ->
  (forall x c v, ev x = Ok (c, v) -> 0 <= c) ->
  (Z.to_nat (e - offset) <= n)%nat ->
  field_table_loop ev n value offset e data <> OutOfFuel.
Proof.
  intros Hev Hc. revert offset data.
  induction n as [|n IH]; intros offset data Hn; cbn [field_table_loop];
    destruct (Z.ltb_spec offset e); try discriminate; try lia.
  destruct (unpack_from 1 value offset) as [k| |] eqn:Ek; cbn [bind];
    try discriminate.
  2: { unfold unpack_from in Ek. case_match; discriminate. }
  pose proof (be_uint_bound k).
  match goal with
  | |- context [ev (slice_from value ?o)] =>
      specialize (Hev o);
      destruct (ev (slice_from value o)) as [[c r]| |] eqn:E
  end; cbn [bind]; try discriminate; try congruence.
  apply Hc in E. apply IH. lia.
Qed.

Lemma embedded_value_fuel_total fuel value :
  (length value < fuel)%nat ->
  embedded_value_fuel gmtime fuel value <> OutOfFuel.
Proof.
  revert value. induction fuel as [|fuel IH]; intros value Hf; [lia|].
  destruct value as [|b rest]; [discriminate|].
  rewrite embedded_value_fuel_cons. cbn [length] in Hf.
  assert (forall o,
    embedded_value_fuel gmtime fuel (slice_from rest o) <> OutOfFuel)
    as Hev.
  { intros o. apply IH. unfold slice_from. rewrite length_drop. lia. }
  by_tag; try primitive_total.
  - unfold field_array_with.
    destruct (unpack 4 _) as [s| |] eqn:Es; cbn [bind]; try discriminate.
    + apply field_array_loop_total; auto.
      * intros x c v. apply embedded_value_fuel_nonneg.
      * lia.
    + unfold unpack in Es. case_match; discriminate.
  - unfold field_table_with.
    destruct (unpack 4 _) as [s| |] eqn:Es; cbn [bind]; try discriminate.
    + apply field_table_loop_total; auto.
      * intros x c v. apply embedded_value_fuel_nonneg.
      * lia.
    + unfold unpack in Es. case_match; discriminate.
Qed.

(** X12. Every decoder ends, with a value or an exception: each turn of
    a compound loop moves the offset forward by at least one byte, and a
    nested value is decoded from a strictly shorter buffer. *)
Theorem decoders_total value :
  _embedded_value gmtime value <> OutOfFuel
  /\ field_array gmtime value <> OutOfFuel
  /\ field_table gmtime value <> OutOfFuel
  /\ forall data_type offset,
       by_type gmtime value data_type offset <> OutOfFuel.
Proof.
  assert (_embedded_value gmtime value <> OutOfFuel) as H1.
  { apply embedded_value_fuel_total. lia. }
  assert (field_array gmtime value <> OutOfFuel) as H2.
  { rewrite <- (field_array_fuel (S (length value))) by lia.
    intros E.
    apply (embedded_value_fuel_total (S (S (length value)))
             ("A"%byte :: value)); [cbn; lia|].
    rewrite embedded_value_fuel_cons. exact E. }
  assert (field_table gmtime value <> OutOfFuel) as H3.
  { rewrite <- (field_table_fuel (S (length value))) by lia.
    intros E.
    apply (embedded_value_fuel_total (S (S (length value)))
             ("F"%byte :: value)); [cbn; lia|].
    rewrite embedded_value_fuel_cons. exact E. }
  repeat split; auto.
  intros data_type offset. unfold by_type.
  repeat case_match; try discriminate; auto; primitive_total.
Qed.

(** ** Primitive decoders *)

(** C5. On a buffer of five bytes or more, [decimal] uses five bytes and
    returns the decimal whose coefficient is the 4-byte big-endian
    mantissa and whose exponent is minus the scale byte: the exact
    value mantissa / 10^scale, nothing rounded. *)
Theorem decimal_exact value :
  (5 <= length value)%nat ->
  let scale := be_uint (take 1 value) in
  let mantissa := be_uint (slice value 1 5) in
  @decimal struct_time value
  = Ok (5, VDecimal (mkDecimal false mantissa (- scale)))
  /\ 0 <= scale < 256 /\ 0 <= mantissa < 2 ^ 32
  /\ (Decimal_value (mkDecimal false mantissa (- scale))
      == mantissa # Z.to_pos (10 ^ scale))%Q.
Proof.
  intros Hlen.
  destruct value as [|s [|b1 [|b2 [|b3 [|b4 rest]]]]];
    cbn [length] in Hlen; try lia.
  change (take 1 (s :: b1 :: b2 :: b3 :: b4 :: rest)) with [s].
  change (slice (s :: b1 :: b2 :: b3 :: b4 :: rest) 1 5)
    with [b1; b2; b3; b4].
  intros scale mantissa.
  assert (0 <= scale < 256) as Hs.
  { pose proof (be_uint_bound [s]) as B. exact B. }
  assert (0 <= mantissa < 2 ^ 32) as Hm.
  { apply be_uint_4_bound. reflexivity. }
  repeat split; try lia.
  - unfold decimal. cbn [index0 bind].
    rewrite unpack_exact by reflexivity. cbn [bind].
    change (slice (s :: b1 :: b2 :: b3 :: b4 :: rest) 1 5)
      with [b1; b2; b3; b4].
    rewrite unpack_exact by reflexivity. cbn [bind].
    fold scale mantissa.
    rewrite Decimal_pow10_exact by lia.
    rewrite Decimal_mul_exact by lia. reflexivity.
  - unfold Decimal_value. cbn [dec_sign dec_exp dec_int].
    destruct (Z.leb_spec 0 (- scale)).
    + replace scale with 0 by lia. cbn. unfold Qeq. cbn. lia.
    + rewrite Z.opp_involutive. reflexivity.
Qed.

Lemma short_string_encoded body rest :
  Z.of_nat (length body) < 256 -> is_ascii body = true ->
  @short_string struct_time
    (byte_of (Z.of_nat (length body)) :: body ++ rest)
  = Ok (Z.of_nat (length body) + 1, VUnicode body).
Proof.
  intros Hlen Hascii. unfold short_string. cbn [index0 bind].
  rewrite unpack_exact by reflexivity. cbn [bind].
  rewrite be_uint_1, ord_byte_of by lia.
  rewrite slice_after_head by reflexivity.
  rewrite unicode_ascii by assumption. reflexivity.
Qed.

Lemma long_string_encoded body rest :
  Z.of_nat (length body) < 2 ^ 32 -> is_ascii body = true ->
  @long_string struct_time
    (be_bytes 4 (Z.of_nat (length body)) ++ body ++ rest)
  = Ok (Z.of_nat (length body) + 4, VUnicode body).
Proof.
  intros Hlen Hascii. unfold long_string.
  rewrite slice_prefix by (rewrite length_be_bytes; reflexivity).
  rewrite unpack_exact by apply length_be_bytes. cbn [bind].
  rewrite be_uint_be_bytes by (change (256 ^ Z.of_nat 4) with (2 ^ 32); lia).
  rewrite slice_mid by (rewrite ?length_be_bytes; lia).
  rewrite unicode_ascii by assumption. reflexivity.
Qed.

(** C6, as the code has it. A 1-byte length n followed by at least n
    bytes, all of them ascii, decodes as short text to (n + 1, the n
    bytes); a 4-byte big-endian length n followed by at least n ascii
    bytes decodes as long text to (n + 4, the n bytes). *)
Theorem text_decoders_ascii body rest :
  is_ascii body = true ->
  (Z.of_nat (length body) < 256 ->
   @short_string struct_time
     (byte_of (Z.of_nat (length body)) :: body ++ rest)
   = Ok (Z.of_nat (length body) + 1, VUnicode body))
  /\ (Z.of_nat (length body) < 2 ^ 32 ->
      @long_string struct_time
        (be_bytes 4 (Z.of_nat (length body)) ++ body ++ rest)
      = Ok (Z.of_nat (length body) + 4, VUnicode body)).
Proof.
  intros Hascii. split; intros Hlen.
  - now apply short_string_encoded.
  - now apply long_string_encoded.
Qed.

(** A byte above 0x7f in the text makes both text decoders raise. *)
Lemma text_decoders_not_ascii body rest :
  is_ascii body = false ->
  (Z.of_nat (length body) < 256 ->
   @short_string struct_time
     (byte_of (Z.of_nat (length body)) :: body ++ rest)
   = Raise UnicodeDecodeError)
  /\ (Z.of_nat (length body) < 2 ^ 32 ->
      @long_string struct_time
        (be_bytes 4 (Z.of_nat (length body)) ++ body ++ rest)
      = Raise UnicodeDecodeError).
Proof.
  intros Hascii. split; intros Hlen.
  - unfold short_string. cbn [index0 bind].
    rewrite unpack_exact by reflexivity. cbn [bind].
    rewrite be_uint_1, ord_byte_of by lia.
    rewrite slice_after_head by reflexivity.
    now rewrite unicode_not_ascii.
  - unfold long_string.
    rewrite slice_prefix by (rewrite length_be_bytes; reflexivity).
    rewrite unpack_exact by apply length_be_bytes. cbn [bind].
    rewrite be_uint_be_bytes
      by (change (256 ^ Z.of_nat 4) with (2 ^ 32); lia).
    rewrite slice_mid by (rewrite ?length_be_bytes; lia).
    now rewrite unicode_not_ascii.
Qed.

(** C3, as the code has it. A buffer shorter than a fixed width, or
    shorter than a length prefix, makes the decoder raise [IndexError]
    or [struct.error]: no value is returned.  A text decoder that has
    its whole length prefix but fewer bytes than the prefix declares,
    those bytes all below 0x80, does not raise: the slice stops at the
    end of the buffer, and the decoder returns the declared count with
    the bytes that are there. *)
Theorem short_buffer value :
  (value = [] ->
     @boolean struct_time value = Raise IndexError
     /\ @octet struct_time value = Raise IndexError
     /\ (forall position,
           @bit struct_time value position = Raise IndexError)
     /\ @decimal struct_time value = Raise IndexError
     /\ @short_string struct_time value = Raise IndexError)
  /\ ((0 < length value < 5)%nat ->
        @decimal struct_time value = Raise struct_error)
  /\ ((length value < 2)%nat ->
        @short_int struct_time value = Raise struct_error)
  /\ ((length value < 4)%nat ->
        @floating_point struct_time value = Raise struct_error
        /\ @long_int struct_time value = Raise struct_error
        /\ @long_string struct_time value = Raise struct_error
        /\ field_array gmtime value = Raise struct_error
        /\ field_table gmtime value = Raise struct_error)
  /\ ((length value < 8)%nat ->
        @long_long_int struct_time value = Raise struct_error
        /\ timestamp gmtime value = Raise struct_error)
  /\ (forall n,
        Z.of_nat (length value) < n < 256 -> is_ascii value = true ->
        @short_string struct_time (byte_of n :: value)
        = Ok (n + 1, VUnicode value))
  /\ (forall n,
        Z.of_nat (length value) < n < 2 ^ 32 -> is_ascii value = true ->
        @long_string struct_time (be_bytes 4 n ++ value)
        = Ok (n + 4, VUnicode value)).
Proof.
  split; [|split; [|split; [|split; [|split; [|split]]]]].
  - intros ->. repeat split; reflexivity.
  - intros H. destruct value as [|s tl]; cbn [length] in H; [lia|].
    unfold decimal. cbn [index0 bind].
    rewrite unpack_exact by reflexivity. cbn [bind].
    change (slice (s :: tl) 1 5) with (take 4 tl).
    rewrite unpack_short; [reflexivity|].
    rewrite length_take. lia.
  - intros H. unfold short_int.
    rewrite unpack_from_short; [reflexivity|].
    now apply (length_slice_0_short value 2).
  - intros H.
    pose proof (length_slice_0_short value 4 H) as Hs.
    unfold floating_point, long_int, long_string, field_array,
      field_table, field_array_with, field_table_with.
    rewrite unpack_from_short, unpack_short by assumption.
    repeat split; reflexivity.
  - intros H.
    pose proof (length_slice_0_short value 8 H) as Hs.
    unfold long_long_int, timestamp.
    rewrite unpack_short by assumption.
    repeat split; reflexivity.
  - intros n Hn Hascii. unfold short_string. cbn [index0 bind].
    rewrite unpack_exact by reflexivity. cbn [bind].
    rewrite be_uint_1, ord_byte_of by lia.
    rewrite (slice_clip [byte_of n] value) by (cbn [length]; lia).
    now rewrite unicode_ascii.
  - intros n Hn Hascii. unfold long_string.
    rewrite slice_prefix by (rewrite length_be_bytes; reflexivity).
    rewrite unpack_exact by apply length_be_bytes. cbn [bind].
    rewrite be_uint_be_bytes
      by (change (256 ^ Z.of_nat 4) with (2 ^ 32); lia).
    rewrite slice_clip by (rewrite ?length_be_bytes; lia).
    now rewrite unicode_ascii.
Qed.

(** ** The self-describing value decoder *)

(** C7, as the code has it. A first byte outside the type tags makes
    [_embedded_value] raise [ValueError]; the exception carries the
    message "Unknown type: " followed by the tag byte, and nothing
    else. *)
Theorem unknown_type_tag b rest :
  ~ In b type_tags ->
  _embedded_value gmtime (b :: rest)
  = Raise (ValueError (str "Unknown type: " ++ [b])).
Proof.
  intros H. rewrite _embedded_value_eq.
  by_tag; try reflexivity; exfalso; apply H; cbn; tauto.
Qed.

(** C8. [_embedded_value] returns (0, None) on the empty buffer and on
    a buffer that starts with NUL, and in no other case does it return
    a zero count or the value None. *)
Theorem embedded_null value :
  (value = [] \/ (exists rest, value = x00 :: rest) ->
   _embedded_value gmtime value = Ok (0, VNone))
  /\ (forall c v,
        _embedded_value gmtime value = Ok (c, v) ->
        c = 0 \/ v = VNone ->
        value = [] \/ exists rest, value = x00 :: rest).
Proof.
  split.
  - intros [->|[rest ->]]; reflexivity.
  - intros c v. rewrite _embedded_value_eq.
    destruct value as [|b rest]; [auto|].
    by_tag; try (right; eauto; fail).
    + unfold field_array, field_array_with.
      destruct (unpack 4 _) as [s| |]; cbn [bind]; try discriminate.
      intros [Hc [l ->]]%field_array_loop_ok.
      pose proof (be_uint_bound s). intros [?|?]; [lia|discriminate].
    + unfold decimal.
      repeat (destruct (_ : result bytes); cbn [bind]; try discriminate).
      intros [= <- <-] [?|?]; [lia|discriminate].
    + unfold floating_point.
      repeat (destruct (_ : result bytes); cbn [bind]; try discriminate).
      intros [= <- <-] [?|?]; [lia|discriminate].
    + unfold field_table, field_table_with.
      destruct (unpack 4 _) as [s| |]; cbn [bind]; try discriminate.
      intros [Hc [d ->]]%field_table_loop_ok.
      pose proof (be_uint_bound s). intros [?|?]; [lia|discriminate].
    + unfold long_int.
      repeat (destruct (_ : result bytes); cbn [bind]; try discriminate).
      intros [= <- <-] [?|?]; [lia|discriminate].
    + unfold long_long_int.
      repeat (destruct (_ : result bytes); cbn [bind]; try discriminate).
      intros [= <- <-] [?|?]; [lia|discriminate].
    + unfold boolean.
      repeat (destruct (_ : result bytes); cbn [bind]; try discriminate).
      intros [= <- <-] [?|?]; [lia|discriminate].
    + unfold timestamp.
      repeat (destruct (_ : result bytes); cbn [bind]; try discriminate).
      destruct (gmtime _); try discriminate.
      intros [= <- <-] [?|?]; [lia|discriminate].
    + unfold short_string.
      destruct (index0 rest) as [i| |]; cbn [bind]; try discriminate.
      destruct (unpack 1 i) as [s| |]; cbn [bind]; try discriminate.
      destruct (unicode _); cbn [bind]; try discriminate.
      pose proof (be_uint_bound s).
      intros [= <- <-] [?|?]; [lia|discriminate].
    + unfold long_string.
      destruct (unpack 4 _) as [s| |]; cbn [bind]; try discriminate.
      destruct (unicode _); cbn [bind]; try discriminate.
      pose proof (be_uint_bound s).
      intros [= <- <-] [?|?]; [lia|discriminate].
    + unfold short_int.
      repeat (destruct (_ : result bytes); cbn [bind]; try discriminate).
      intros [= <- <-] [?|?]; [lia|discriminate].
    + discriminate.
Qed.

(** ** The typed dispatcher *)

(** C9. [by_type] sends each of the ten type names to its decoder and
    returns what the decoder returns; any other name raises
    [ValueError]; the bit position reaches no decoder but [bit]. *)
Theorem by_type_dispatch value offset :
  by_type gmtime value "bit" offset = bit value offset
  /\ by_type gmtime value "boolean" offset = boolean value
  /\ by_type gmtime value "long" offset = long_int value
  /\ by_type gmtime value "longlong" offset = long_long_int value
  /\ by_type gmtime value "longstr" offset = long_string value
  /\ by_type gmtime value "octet" offset = octet value
  /\ by_type gmtime value "short" offset = short_int value
  /\ by_type gmtime value "shortstr" offset = short_string value
  /\ by_type gmtime value "table" offset = field_table gmtime value
  /\ by_type gmtime value "timestamp" offset = timestamp gmtime value
  /\ (forall data_type,
        ~ In data_type type_names ->
        by_type gmtime value data_type offset
        = Raise (ValueError (str "Unknown type: " ++ value)))
  /\ (forall data_type offset',
        data_type <> "bit"%string ->
        by_type gmtime value data_type offset'
        = by_type gmtime value data_type offset).
Proof.
  repeat match goal with |- _ = _ /\ _ => split; [reflexivity|] end.
  split.
  - intros data_type H. unfold by_type.
    repeat match goal with
    | |- context [String.eqb data_type ?s] =>
        destruct (String.eqb_spec data_type s) as [->|?];
        [exfalso; apply H; cbn; tauto|]
    end.
    reflexivity.
  - intros data_type offset' H. unfold by_type.
    destruct (String.eqb_spec data_type "bit"); [contradiction|].
    reflexivity.
Qed.

(** ** Compound decoders *)

(** C10. When [field_table] returns, the count it returns is 4 plus
    the big-endian number in the first four bytes of the buffer,
    whatever the entries made the offset advance to. *)
Theorem field_table_consumed value c v :
  field_table gmtime value = Ok (c, v) ->
  (4 <= length value)%nat
  /\ c = 4 + be_uint (slice value 0 4)
  /\ exists d, v = VDict d.
Proof.
  unfold field_table, field_table_with, unpack.
  destruct (Nat.eqb_spec (length (slice value 0 4)) 4) as [E|E];
    cbn [bind]; [|discriminate].
  intros [-> Hd]%field_table_loop_ok. repeat split; [|assumption].
  rewrite slice_0, length_take in E. lia.
Qed.

(** *** Each primitive decoder on the bytes of its encoder *)

Lemma be_int_32_encoded n :
  - 2 ^ 31 <= n < 2 ^ 31 -> be_int 32 (be_bytes 4 (n mod 2 ^ 32)) = n.
Proof.
  intros H. unfold be_int.
  rewrite be_uint_be_bytes
    by (change (256 ^ Z.of_nat 4) with (2 ^ 32);
        apply Z.mod_pos_bound; lia).
  change (2 ^ (32 - 1)) with (2 ^ 31).
  destruct (Z.le_gt_cases 0 n).
  - rewrite Z.mod_small by lia.
    destruct (Z.ltb_spec n (2 ^ 31)); lia.
  - replace (n mod 2 ^ 32) with (n + 2 ^ 32).
    + destruct (Z.ltb_spec (n + 2 ^ 32) (2 ^ 31)); lia.
    + apply (Z.mod_unique n (2 ^ 32) (-1)); lia.
Qed.

Lemma be_int_64_encoded n :
  - 2 ^ 63 <= n < 2 ^ 63 -> be_int 64 (be_bytes 8 (n mod 2 ^ 64)) = n.
Proof.
  intros H. unfold be_int.
  rewrite be_uint_be_bytes
    by (change (256 ^ Z.of_nat 8) with (2 ^ 64);
        apply Z.mod_pos_bound; lia).
  change (2 ^ (64 - 1)) with (2 ^ 63).
  destruct (Z.le_gt_cases 0 n).
  - rewrite Z.mod_small by lia.
    destruct (Z.ltb_spec n (2 ^ 63)); lia.
  - replace (n mod 2 ^ 64) with (n + 2 ^ 64).
    + destruct (Z.ltb_spec (n + 2 ^ 64) (2 ^ 63)); lia.
    + apply (Z.mod_unique n (2 ^ 64) (-1)); lia.
Qed.

Lemma long_int_encoded n rest :
  - 2 ^ 31 <= n < 2 ^ 31 ->
  @long_int struct_time (be_bytes 4 (n mod 2 ^ 32) ++ rest)
  = Ok (4, VInt n).
Proof.
  intros H. unfold long_int.
  rewrite slice_prefix by (rewrite length_be_bytes; reflexivity).
  rewrite unpack_exact by apply length_be_bytes. cbn [bind].
  now rewrite be_int_32_encoded.
Qed.

Lemma long_long_int_encoded n rest :
  - 2 ^ 63 <= n < 2 ^ 63 ->
  @long_long_int struct_time (be_bytes 8 (n mod 2 ^ 64) ++ rest)
  = Ok (8, VInt n).
Proof.
  intros H. unfold long_long_int.
  rewrite slice_prefix by (rewrite length_be_bytes; reflexivity).
  rewrite unpack_exact by apply length_be_bytes. cbn [bind].
  now rewrite be_int_64_encoded.
Qed.

Lemma short_int_encoded n rest :
  0 <= n < 2 ^ 16 ->
  @short_int struct_time (be_bytes 2 n ++ rest) = Ok (2, VInt n).
Proof.
  intros H. unfold short_int.
  rewrite slice_prefix by (rewrite length_be_bytes; reflexivity).
  rewrite unpack_from_exact by apply length_be_bytes. cbn [bind].
  rewrite be_uint_be_bytes
    by (change (256 ^ Z.of_nat 2) with (2 ^ 16); lia).
  reflexivity.
Qed.

Lemma floating_point_encoded bits rest :
  0 <= bits < 2 ^ 32 ->
  @floating_point struct_time (be_bytes 4 bits ++ rest)
  = Ok (4, VFloat bits).
Proof.
  intros H. unfold floating_point.
  rewrite unpack_from_prefix by apply length_be_bytes. cbn [bind].
  rewrite be_uint_be_bytes
    by (change (256 ^ Z.of_nat 4) with (2 ^ 32); lia).
  reflexivity.
Qed.

Lemma boolean_encoded b rest :
  @boolean struct_time (b :: rest) = Ok (1, VBool (negb (ord b =? 0))).
Proof. reflexivity. Qed.

Lemma timestamp_encoded secs t rest :
  0 <= secs < 2 ^ 64 -> gmtime secs = Some t ->
  timestamp gmtime (be_bytes 8 secs ++ rest) = Ok (8, VTime t).
Proof.
  intros H Ht. unfold timestamp.
  rewrite slice_prefix by (rewrite length_be_bytes; reflexivity).
  rewrite unpack_exact by apply length_be_bytes. cbn [bind].
  rewrite be_uint_be_bytes
    by (change (256 ^ Z.of_nat 8) with (2 ^ 64); lia).
  now rewrite Ht.
Qed.

Lemma decimal_encoded scale mantissa rest :
  0 <= scale < 256 -> 0 <= mantissa < 2 ^ 32 ->
  @decimal struct_time (byte_of scale :: be_bytes 4 mantissa ++ rest)
  = Ok (5, VDecimal (mkDecimal false mantissa (- scale))).
Proof.
  intros Hs Hm. unfold decimal. cbn [index0 bind].
  rewrite unpack_exact by reflexivity. cbn [bind].
  rewrite slice_after_head by (rewrite length_be_bytes; reflexivity).
  rewrite unpack_exact by apply length_be_bytes. cbn [bind].
  rewrite be_uint_1, ord_byte_of by lia.
  rewrite be_uint_be_bytes
    by (change (256 ^ Z.of_nat 4) with (2 ^ 32); lia).
  rewrite Decimal_pow10_exact by lia.
  now rewrite Decimal_mul_exact.
Qed.

(** *** The loops on encoded regions *)

Lemma encode_nonempty w : (1 <= length (encode w))%nat.
Proof.
  destruct w; cbn [encode length]; lia.
Qed.

Lemma encode_items_cons w items :
  encode_items (w :: items) = encode w ++ encode_items items.
Proof. reflexivity. Qed.

Lemma encode_items_snoc items w :
  encode_items (items ++ [w]) = encode_items items ++ encode w.
Proof.
  unfold encode_items. rewrite map_app, concat_app. cbn.
  now rewrite app_nil_r.
Qed.

Lemma length_items_le items :
  (length items <= length (encode_items items))%nat.
Proof.
  induction items as [|w items IH]; [reflexivity|].
  rewrite encode_items_cons, length_app. cbn [length].
  pose proof (encode_nonempty w). lia.
Qed.

Lemma length_encode_in w items :
  In w items -> (length (encode w) <= length (encode_items items))%nat.
Proof.
  induction items as [|x items IH]; [intros []|].
  rewrite encode_items_cons, length_app.
  intros [->|H]; [lia|]. specialize (IH H). lia.
Qed.

Lemma field_array_loop_done ev n value offset e data :
  e <= offset ->
  field_array_loop ev n value offset e data = Ok (offset, VList data).
Proof.
  intros H. destruct n; cbn [field_array_loop];
    destruct (Z.ltb_spec offset e); (lia || reflexivity).
Qed.

(** The array loop over encoded elements: it goes on while the offset is
    below [e], so it decodes every element that starts below [e], the
    last one in full even when [e] falls inside it. *)
Lemma field_array_loop_run ev init last :
  forall n pre rest data e,
  (forall w rest', In w (init ++ [last]) ->
     ev (encode w ++ rest')
     = Ok (Z.of_nat (length (encode w)) - 1, denote gmtime w)) ->
  (length init < n)%nat ->
  Z.of_nat (length pre + length (encode_items init)) < e ->
  e <= Z.of_nat (length pre + length (encode_items (init ++ [last]))) ->
  field_array_loop ev n (pre ++ encode_items (init ++ [last]) ++ rest)
    (Z.of_nat (length pre)) e data
  = Ok (Z.of_nat (length pre + length (encode_items (init ++ [last]))),
        VList (data ++ map (denote gmtime) (init ++ [last]))).
Proof.
  induction init as [|w init IH]; intros n pre rest data e Hev Hn Hlo Hhi;
    (destruct n as [|n]; [cbn [length] in Hn; lia|]);
    cbn [field_array_loop].
  - cbn [app] in *. rewrite encode_items_cons in *.
    change (encode_items []) with (@nil byte) in *.
    rewrite app_nil_r in *. cbn [length] in Hlo.
    destruct (Z.ltb_spec (Z.of_nat (length pre)) e); [|lia].
    rewrite slice_from_app by reflexivity.
    rewrite Hev by (left; reflexivity). cbn [bind].
    rewrite field_array_loop_done by lia.
    do 2 f_equal; lia.
  - cbn [app] in *. rewrite encode_items_cons in *.
    rewrite length_app in Hlo.
    destruct (Z.ltb_spec (Z.of_nat (length pre)) e); [|lia].
    rewrite <- (app_assoc (encode w)).
    rewrite slice_from_app by reflexivity.
    rewrite Hev by (left; reflexivity). cbn [bind].
    rewrite (app_assoc pre (encode w)).
    replace (Z.of_nat (length pre)
             + (Z.of_nat (length (encode w)) - 1 + 1))
      with (Z.of_nat (length (pre ++ encode w)))
      by (rewrite length_app; lia).
    rewrite IH.
    + rewrite !length_app, <- app_assoc. cbn [map app].
      do 2 f_equal; lia.
    + intros x rest' Hx. apply Hev. now right.
    + cbn [length] in Hn. lia.
    + rewrite length_app. lia.
    + rewrite !length_app in *. lia.
Qed.

(** The array loop over a region that holds exactly its elements. *)
Lemma field_array_loop_exact ev items n pre rest data :
  (forall w rest', In w items ->
     ev (encode w ++ rest')
     = Ok (Z.of_nat (length (encode w)) - 1, denote gmtime w)) ->
  (length (encode_items items) <= n)%nat ->
  field_array_loop ev n (pre ++ encode_items items ++ rest)
    (Z.of_nat (length pre))
    (Z.of_nat (length pre) + Z.of_nat (length (encode_items items))) data
  = Ok (Z.of_nat (length pre) + Z.of_nat (length (encode_items items)),
        VList (data ++ map (denote gmtime) items)).
Proof.
  intros Hev Hn.
  destruct items as [|last init _] using rev_ind.
  - cbn [encode_items map concat length].
    rewrite field_array_loop_done, app_nil_r by lia.
    do 2 f_equal; lia.
  - rewrite field_array_loop_run; auto.
    + do 2 f_equal; lia.
    + pose proof (length_items_le (init ++ [last])) as H.
      rewrite length_app in H. cbn [length] in H. lia.
    + rewrite encode_items_snoc, length_app.
      pose proof (encode_nonempty last). lia.
    + lia.
Qed.

Lemma encode_entries_cons en entries :
  encode_entries (en :: entries)
  = encode_entry encode en ++ encode_entries entries.
Proof. reflexivity. Qed.

Lemma length_encode_entry en :
  length (encode_entry encode en)
  = (1 + length en.1 + length (encode en.2))%nat.
Proof.
  unfold encode_entry. cbn [length]. rewrite length_app. lia.
Qed.

Lemma length_entries_le entries :
  (length entries <= length (encode_entries entries))%nat.
Proof.
  induction entries as [|en entries IH]; [reflexivity|].
  rewrite encode_entries_cons, length_app, length_encode_entry.
  cbn [length]. lia.
Qed.

Lemma length_encode_entry_in en entries :
  In en entries ->
  (length (encode en.2) < length (encode_entries entries))%nat.
Proof.
  induction entries as [|x entries IH]; [intros []|].
  rewrite encode_entries_cons, length_app, length_encode_entry.
  intros [->|H]; [lia|]. specialize (IH H). lia.
Qed.

Lemma field_table_loop_done ev n value offset e data :
  e <= offset ->
  field_table_loop ev n value offset e data = Ok (e, VDict data).
Proof.
  intros H. destruct n; cbn [field_table_loop];
    destruct (Z.ltb_spec offset e); (lia || reflexivity).
Qed.

(** One turn of the table loop on an encoded entry. *)
Lemma field_table_loop_entry ev n pre k w tail e data :
  Z.of_nat (length k) < 256 ->
  Z.of_nat (length pre) < e ->
  ev (encode w ++ tail)
  = Ok (Z.of_nat (length (encode w)) - 1, denote gmtime w) ->
  field_table_loop ev (S n) (pre ++ encode_entry encode (k, w) ++ tail)
    (Z.of_nat (length pre)) e data
  = field_table_loop ev n (pre ++ encode_entry encode (k, w) ++ tail)
      (Z.of_nat (length (pre ++ encode_entry encode (k, w)))) e
      (<[k := denote gmtime w]> data).
Proof.
  intros Hk He Hev. cbn [field_table_loop].
  destruct (Z.ltb_spec (Z.of_nat (length pre)) e); [|lia].
  set (value := pre ++ encode_entry encode (k, w) ++ tail).
  rewrite (unpack_from_byte value pre (byte_of (Z.of_nat (length k)))
             (k ++ encode w ++ tail))
    by (unfold value, encode_entry; cbn [fst snd app];
        now rewrite <- !app_assoc).
  cbn [bind]. rewrite be_uint_1, ord_byte_of by lia.
  rewrite (slice_at value (pre ++ [byte_of (Z.of_nat (length k))]) k
             (encode w ++ tail))
    by (try (unfold value, encode_entry; cbn [fst snd app];
             now rewrite <- !app_assoc);
        rewrite ?length_app; cbn [length]; lia).
  rewrite (slice_from_at value
             ((pre ++ [byte_of (Z.of_nat (length k))]) ++ k)
             (encode w ++ tail))
    by (try (unfold value, encode_entry; cbn [fst snd app];
             now rewrite <- !app_assoc);
        rewrite ?length_app; cbn [length]; lia).
  rewrite Hev. cbn [bind]. f_equal.
  rewrite length_app, length_encode_entry. cbn [fst snd]. lia.
Qed.

(** The table loop over encoded entries: every entry that starts below
    [e] is read in full and inserted, the last one even when [e] falls
    inside it; the count returned is [e]. *)
Lemma field_table_loop_run ev init last :
  forall n pre rest data e,
  (forall en, In en (init ++ [last]) -> Z.of_nat (length en.1) < 256) ->
  (forall en rest', In en (init ++ [last]) ->
     ev (encode en.2 ++ rest')
     = Ok (Z.of_nat (length (encode en.2)) - 1, denote gmtime en.2)) ->
  (length init < n)%nat ->
  Z.of_nat (length pre + length (encode_entries init)) < e ->
  e <= Z.of_nat (length pre + length (encode_entries (init ++ [last]))) ->
  field_table_loop ev n (pre ++ encode_entries (init ++ [last]) ++ rest)
    (Z.of_nat (length pre)) e data
  = Ok (e, VDict (insert_all
                    (map (fun en => (en.1, denote gmtime en.2))
                         (init ++ [last]))
                    data)).
Proof.
  induction init as [|[k w] init IH];
    intros n pre rest data e Hk Hev Hn Hlo Hhi;
    (destruct n as [|n]; [cbn [length] in Hn; lia|]).
  - destruct last as [k w]. cbn [app] in *.
    rewrite encode_entries_cons in *.
    change (encode_entries []) with (@nil byte) in *.
    rewrite app_nil_r in *. cbn [length] in Hlo.
    rewrite field_table_loop_entry.
    + rewrite field_table_loop_done by (rewrite length_app; lia).
      reflexivity.
    + apply (Hk (k, w)). now left.
    + lia.
    + apply (Hev (k, w)). now left.
  - cbn [app] in *. rewrite encode_entries_cons in *.
    rewrite length_app in Hlo.
    rewrite <- (app_assoc (encode_entry encode (k, w))).
    rewrite field_table_loop_entry.
    + rewrite (app_assoc pre). rewrite IH; [reflexivity|..].
      * intros en Hen. apply Hk. now right.
      * intros en rest' Hen. apply Hev. now right.
      * cbn [length] in Hn. lia.
      * rewrite length_app. lia.
      * rewrite !length_app in *. lia.
    + apply (Hk (k, w)). now left.
    + lia.
    + apply (Hev (k, w)). now left.
Qed.

(** The table loop over a region that holds exactly its entries. *)
Lemma field_table_loop_exact ev entries n pre rest data :
  (forall en, In en entries -> Z.of_nat (length en.1) < 256) ->
  (forall en rest', In en entries ->
     ev (encode en.2 ++ rest')
     = Ok (Z.of_nat (length (encode en.2)) - 1, denote gmtime en.2)) ->
  (length (encode_entries entries) <= n)%nat ->
  field_table_loop ev n (pre ++ encode_entries entries ++ rest)
    (Z.of_nat (length pre))
    (Z.of_nat (length pre) + Z.of_nat (length (encode_entries entries)))
    data
  = Ok (Z.of_nat (length pre) + Z.of_nat (length (encode_entries entries)),
        VDict (insert_all
                 (map (fun en => (en.1, denote gmtime en.2)) entries)
                 data)).
Proof.
  intros Hk Hev Hn.
  destruct entries as [|last init _] using rev_ind.
  - rewrite field_table_loop_done by (cbn; lia). reflexivity.
  - rewrite field_table_loop_run; auto.
    + pose proof (length_entries_le (init ++ [last])) as H.
      rewrite length_app in H. cbn [length] in H. lia.
    + unfold encode_entries. rewrite map_app, concat_app, length_app.
      cbn [map concat]. rewrite app_nil_r, length_encode_entry. lia.
    + lia.
Qed.

(** *** The compound decoders on encoded regions, given the elements *)

Lemma field_array_exact items rest :
  (forall w rest', In w items ->
     _embedded_value gmtime (encode w ++ rest')
     = Ok (Z.of_nat (length (encode w)) - 1, denote gmtime w)) ->
  Z.of_nat (length (encode_items items)) < 2 ^ 32 ->
  field_array gmtime
    (be_bytes 4 (Z.of_nat (length (encode_items items)))
     ++ encode_items items ++ rest)
  = Ok (4 + Z.of_nat (length (encode_items items)),
        VList (map (denote gmtime) items)).
Proof.
  intros Hev Hlen. unfold field_array, field_array_with.
  rewrite slice_prefix by (rewrite length_be_bytes; reflexivity).
  rewrite unpack_exact by apply length_be_bytes. cbn [bind].
  rewrite be_uint_be_bytes
    by (change (256 ^ Z.of_nat 4) with (2 ^ 32); lia).
  pose proof (field_array_loop_exact (_embedded_value gmtime) items
                (Z.to_nat (Z.of_nat (length (encode_items items))))
                (be_bytes 4 (Z.of_nat (length (encode_items items))))
                rest [] Hev) as L.
  rewrite length_be_bytes in L. apply L. lia.
Qed.

Lemma field_table_exact entries rest :
  (forall en, In en entries -> Z.of_nat (length en.1) < 256) ->
  (forall en rest', In en entries ->
     _embedded_value gmtime (encode en.2 ++ rest')
     = Ok (Z.of_nat (length (encode en.2)) - 1, denote gmtime en.2)) ->
  Z.of_nat (length (encode_entries entries)) < 2 ^ 32 ->
  field_table gmtime
    (be_bytes 4 (Z.of_nat (length (encode_entries entries)))
     ++ encode_entries entries ++ rest)
  = Ok (4 + Z.of_nat (length (encode_entries entries)),
        VDict (insert_all
                 (map (fun en => (en.1, denote gmtime en.2)) entries) ∅)).
Proof.
  intros Hk Hev Hlen. unfold field_table, field_table_with.
  rewrite slice_prefix by (rewrite length_be_bytes; reflexivity).
  rewrite unpack_exact by apply length_be_bytes. cbn [bind].
  rewrite be_uint_be_bytes
    by (change (256 ^ Z.of_nat 4) with (2 ^ 32); lia).
  pose proof (field_table_loop_exact (_embedded_value gmtime) entries
                (Z.to_nat (Z.of_nat (length (encode_entries entries))))
                (be_bytes 4 (Z.of_nat (length (encode_entries entries))))
                rest ∅ Hk Hev) as L.
  rewrite length_be_bytes in L. apply L. lia.
Qed.

(** *** One well-formed value *)

Lemma tag_is_refl b : tag_is b b = true.
Proof. unfold tag_is. now apply bool_decide_eq_true_2. Qed.

Lemma tag_is_ne a b : a <> b -> tag_is a b = false.
Proof. unfold tag_is. apply bool_decide_eq_false_2. Qed.

Ltac pick_tag :=
  rewrite _embedded_value_eq;
  rewrite ?tag_is_ne by discriminate;
  rewrite tag_is_refl; cbv beta iota.

Ltac wf_props H :=
  cbn [wf] in H;
  repeat match type of H with
  | _ && _ = true => apply andb_true_iff in H; destruct H as [H ?]
  end;
  repeat match goal with
  | H' : (_ <=? _) = true |- _ => apply Z.leb_le in H'
  | H' : (_ <? _) = true |- _ => apply Z.ltb_lt in H'
  | H' : bool_decide _ = true |- _ => apply bool_decide_eq_true_1 in H'
  end.

Lemma embedded_value_encoded_bounded n :
  forall w rest,
  (length (encode w) <= n)%nat -> wf gmtime w = true ->
  _embedded_value gmtime (encode w ++ rest)
  = Ok (Z.of_nat (length (encode w)) - 1, denote gmtime w).
Proof.
  induction n as [|n IH]; intros w rest Hn Hwf.
  { pose proof (encode_nonempty w). lia. }
  destruct w; wf_props Hwf; cbn [encode denote] in *.
  - (* field array *)
    fold (encode_items items) in *. cbn [app length] in *.
    rewrite length_app, length_be_bytes in *. rewrite <- app_assoc.
    pick_tag. rewrite field_array_exact; [do 2 f_equal; lia| |lia].
    intros w rest' Hw. apply IH.
    + pose proof (length_encode_in w items Hw). lia.
    + rewrite List.forallb_forall in Hwf. now apply Hwf.
  - (* decimal *)
    cbn [app]. pick_tag. rewrite decimal_encoded by lia.
    cbn [length]. rewrite length_be_bytes. reflexivity.
  - (* float *)
    cbn [app]. pick_tag. rewrite floating_point_encoded by lia.
    cbn [length]. rewrite length_be_bytes. reflexivity.
  - (* field table *)
    fold (encode_entries entries) in *. cbn [app length] in *.
    rewrite length_app, length_be_bytes in *. rewrite <- app_assoc.
    rewrite List.forallb_forall in Hwf.
    pick_tag. rewrite field_table_exact; [do 2 f_equal; lia| | |lia].
    + intros en Hen. apply Hwf in Hen.
      apply andb_true_iff in Hen. destruct Hen as [Hen _].
      now apply Z.ltb_lt in Hen.
    + intros en rest' Hen. apply IH.
      * pose proof (length_encode_entry_in en entries Hen). lia.
      * apply Hwf in Hen. apply andb_true_iff in Hen. tauto.
  - (* long *)
    cbn [app]. pick_tag. rewrite long_int_encoded by lia.
    cbn [length]. rewrite length_be_bytes. reflexivity.
  - (* longlong *)
    cbn [app]. pick_tag. rewrite long_long_int_encoded by lia.
    cbn [length]. rewrite length_be_bytes. reflexivity.
  - (* boolean *)
    cbn [app]. pick_tag. reflexivity.
  - (* timestamp *)
    cbn [app]. pick_tag.
    match goal with H' : is_Some _ |- _ => destruct H' as [t Ht] end.
    rewrite (timestamp_encoded secs t) by (assumption || lia).
    rewrite Ht. cbn [length]. rewrite length_be_bytes. reflexivity.
  - (* short text *)
    cbn [app]. pick_tag. rewrite short_string_encoded by assumption.
    cbn [length]. do 2 f_equal; lia.
  - (* long text *)
    cbn [app]. rewrite <- app_assoc.
    pick_tag. rewrite long_string_encoded by assumption.
    cbn [length]. rewrite length_app, length_be_bytes.
    do 2 f_equal; lia.
  - (* short *)
    cbn [app]. pick_tag. rewrite short_int_encoded by lia.
    cbn [length]. rewrite length_be_bytes. reflexivity.
  - (* null *)
    cbn [app]. pick_tag. reflexivity.
Qed.

(** A well-formed encoded value, whatever follows it, decodes to the
    value it denotes, and the count is its length without the tag. *)
Lemma embedded_value_encoded w rest :
  wf gmtime w = true ->
  _embedded_value gmtime (encode w ++ rest)
  = Ok (Z.of_nat (length (encode w)) - 1, denote gmtime w).
Proof.
  apply (embedded_value_encoded_bounded (length (encode w))). lia.
Qed.

(** *** Last occurrence wins *)

Lemma insert_all_snoc {V} (kvs : list (bytes * V)) (kv : bytes * V)
    (m : gmap bytes V) :
  insert_all (kvs ++ [kv]) m = <[kv.1 := kv.2]> (insert_all kvs m).
Proof.
  unfold insert_all. now rewrite fold_left_app.
Qed.

Lemma insert_all_lookup {V} (kvs : list (bytes * V)) (m : gmap bytes V)
    (k : bytes) :
  insert_all kvs m !! k
  = match lookup_last k kvs with
    | Some x => Some x
    | None => m !! k
    end.
Proof.
  induction kvs as [|kv kvs IH] using rev_ind; [reflexivity|].
  rewrite insert_all_snoc. unfold lookup_last in *.
  rewrite rev_app_distr. cbn [rev app find].
  case_bool_decide as E.
  - rewrite <- E. cbn. apply lookup_insert_eq.
  - rewrite lookup_insert_ne by assumption. exact IH.
Qed.

(** C2, as the code has it. A buffer that starts with a 4-byte
    big-endian region length L, followed by well-formed tagged values
    that fill exactly L bytes, in which every text holds only bytes
    below 0x80 and every timestamp is one [time.gmtime] accepts, decodes
    as a field array to the values in wire order, one per encoded value,
    with count 4 + L. *)
Theorem field_array_decodes items rest :
  forallb (wf gmtime) items = true ->
  Z.of_nat (length (encode_items items)) < 2 ^ 32 ->
  field_array gmtime
    (be_bytes 4 (Z.of_nat (length (encode_items items)))
     ++ encode_items items ++ rest)
  = Ok (4 + Z.of_nat (length (encode_items items)),
        VList (map (denote gmtime) items)).
Proof.
  intros Hwf Hlen. apply field_array_exact; [|assumption].
  intros w rest' Hw. apply embedded_value_encoded.
  rewrite List.forallb_forall in Hwf. now apply Hwf.
Qed.

(** C1, as the code has it. A buffer that starts with a 4-byte
    big-endian region length L, followed by well-formed entries (1-byte
    key length, key, tagged value) that fill exactly L bytes, in which
    every text value holds only bytes below 0x80 and every timestamp is
    one [time.gmtime] accepts, decodes as a field table to count 4 + L
    and the mapping made by inserting the pairs in wire order; the
    mapping gives each key the value of its last entry. *)
Theorem field_table_decodes entries rest :
  forallb (wf_entry gmtime) entries = true ->
  Z.of_nat (length (encode_entries entries)) < 2 ^ 32 ->
  let pairs := map (fun en => (en.1, denote gmtime en.2)) entries in
  field_table gmtime
    (be_bytes 4 (Z.of_nat (length (encode_entries entries)))
     ++ encode_entries entries ++ rest)
  = Ok (4 + Z.of_nat (length (encode_entries entries)),
        VDict (insert_all pairs ∅))
  /\ forall k, insert_all pairs ∅ !! k = lookup_last k pairs.
Proof.
  intros Hwf Hlen pairs. rewrite List.forallb_forall in Hwf. split.
  - apply field_table_exact; [| |assumption].
    + intros en Hen. apply Hwf in Hen. unfold wf_entry in Hen.
      apply andb_true_iff in Hen. destruct Hen as [Hen _].
      now apply Z.ltb_lt in Hen.
    + intros en rest' Hen. apply embedded_value_encoded.
      apply Hwf in Hen. unfold wf_entry in Hen.
      apply andb_true_iff in Hen. tauto.
  - intros k. rewrite insert_all_lookup, lookup_empty.
    now destruct (lookup_last k pairs).
Qed.


End Properties.

(** * Worked examples on the sample platform *)

(** C1: three entries, the key "a" twice; the later value stays.  The
    region takes 19 bytes, one more byte follows it. *)
Lemma field_table_decodes_witness :
  forallb (wf_entry gmtime_utc) repeated_key = true
  /\ Z.of_nat (length (encode_entries repeated_key)) < 2 ^ 32
  /\ field_table gmtime_utc
       (bytes_of [0; 0; 0; 19;
                  1; 97; 73; 0; 0; 0; 1;
                  1; 98; 115; 1; 120;
                  1; 97; 73; 0; 0; 0; 2;
                  9])
     = Ok (23, VDict (<[str "a" := VInt 2]>
                        (<[str "b" := VUnicode (str "x")]> ∅)))
  /\ field_table gmtime_utc (bytes_of [0; 0; 0; 0]) = Ok (4, VDict ∅).
Proof.
  split; [reflexivity|]. split; [reflexivity|]. split.
  - exact (proj1 (field_table_decodes tm gmtime_utc repeated_key
                    (bytes_of [9]) eq_refl eq_refl)).
  - exact (proj1 (field_table_decodes tm gmtime_utc [] [] eq_refl eq_refl)).
Defined.

(** C1 fails on the code: the region holds one entry and nothing else,
    key "a" with a short text of the one byte 0xff, or with the
    timestamp 2^64 - 1; [field_table] raises. *)
Lemma field_table_value_rejected :
  bytes_of [0; 0; 0; 5; 1; 97; 115; 1; 255]
  = be_bytes 4 5 ++ encode_entries [(str "a", WShortStr (bytes_of [255]))]
  /\ field_table gmtime_utc (bytes_of [0; 0; 0; 5; 1; 97; 115; 1; 255])
     = Raise UnicodeDecodeError
  /\ bytes_of [0; 0; 0; 11; 1; 97; 84;
               255; 255; 255; 255; 255; 255; 255; 255]
     = be_bytes 4 11
       ++ encode_entries [(str "a", WTimestamp (2 ^ 64 - 1))]
  /\ field_table gmtime_utc
       (bytes_of [0; 0; 0; 11; 1; 97; 84;
                  255; 255; 255; 255; 255; 255; 255; 255])
     = Raise gmtime_error.
Proof.
  repeat split; reflexivity.
Qed.

(** C2: an array region of two short texts, 9 bytes. *)
Lemma field_array_decodes_witness :
  forallb (wf gmtime_utc) two_texts = true
  /\ Z.of_nat (length (encode_items two_texts)) < 2 ^ 32
  /\ field_array gmtime_utc
       (bytes_of [0; 0; 0; 9; 115; 2; 104; 105; 115; 3; 97; 98; 99])
     = Ok (13, VList [VUnicode (str "hi"); VUnicode (str "abc")]).
Proof.
  split; [reflexivity|]. split; [reflexivity|].
  exact (field_array_decodes tm gmtime_utc two_texts [] eq_refl eq_refl).
Defined.

(** C2 fails on the code: the region holds one short text of the one
    byte 0xff, or the one timestamp 2^64 - 1; [field_array] raises. *)
Lemma field_array_value_rejected :
  bytes_of [0; 0; 0; 3; 115; 1; 255]
  = be_bytes 4 3 ++ encode_items [WShortStr (bytes_of [255])]
  /\ field_array gmtime_utc (bytes_of [0; 0; 0; 3; 115; 1; 255])
     = Raise UnicodeDecodeError
  /\ bytes_of [0; 0; 0; 9; 84; 255; 255; 255; 255; 255; 255; 255; 255]
     = be_bytes 4 9 ++ encode_items [WTimestamp (2 ^ 64 - 1)]
  /\ field_array gmtime_utc
       (bytes_of [0; 0; 0; 9; 84; 255; 255; 255; 255; 255; 255; 255; 255])
     = Raise gmtime_error.
Proof.
  repeat split; reflexivity.
Qed.

(** C3: short buffers that raise, and a short text body that does not. *)
Lemma short_buffer_witness :
  @boolean tm [] = Raise IndexError
  /\ @decimal tm (bytes_of [2; 0; 0]) = Raise struct_error
  /\ @long_int tm (bytes_of [0; 0; 1]) = Raise struct_error
  /\ timestamp gmtime_utc (bytes_of [0; 0; 0; 0; 0; 0; 1]) = Raise struct_error
  /\ @long_string tm (bytes_of [0; 0; 0; 5; 104])
     = Ok (9, VUnicode (str "h")).
Proof.
  split; [|split; [|split; [|split]]].
  - destruct (short_buffer tm gmtime_utc []) as (H & _).
    apply H. reflexivity.
  - destruct (short_buffer tm gmtime_utc (bytes_of [2; 0; 0]))
      as (_ & H & _).
    apply H. cbn. lia.
  - destruct (short_buffer tm gmtime_utc (bytes_of [0; 0; 1]))
      as (_ & _ & _ & H & _).
    apply H. cbn. lia.
  - destruct (short_buffer tm gmtime_utc (bytes_of [0; 0; 0; 0; 0; 0; 1]))
      as (_ & _ & _ & _ & H & _).
    apply H. cbn. lia.
  - destruct (short_buffer tm gmtime_utc (bytes_of [104]))
      as (_ & _ & _ & _ & _ & _ & H).
    apply (H 5); [cbn; lia | reflexivity].
Defined.

(** C3 fails on the code: five bytes, the prefix declares five bytes of
    text, nine bytes would be needed; [long_string] returns. *)
Lemma long_string_short_body :
  Z.of_nat (length (bytes_of [0; 0; 0; 5; 104]))
  < 4 + be_uint (slice (bytes_of [0; 0; 0; 5; 104]) 0 4)
  /\ @long_string tm (bytes_of [0; 0; 0; 5; 104])
     = Ok (9, VUnicode (str "h"))
  /\ @short_string tm (bytes_of [3; 104])
     = Ok (4, VUnicode (str "h")).
Proof.
  split; [reflexivity|]. split; reflexivity.
Qed.



(** C5: scale 2, mantissa 12345: exactly 123.45. *)
Lemma decimal_exact_witness :
  (5 <= length (bytes_of [2; 0; 0; 48; 57]%Z))%nat
  /\ @decimal tm (bytes_of [2; 0; 0; 48; 57])
     = Ok (5, VDecimal (mkDecimal false 12345 (-2)))
  /\ (Decimal_value (mkDecimal false 12345 (-2)) == 12345 # 100)%Q.
Proof.
  assert (5 <= length (bytes_of [2; 0; 0; 48; 57]%Z))%nat as H by (cbn; lia).
  split; [exact H|].
  destruct (decimal_exact tm (bytes_of [2; 0; 0; 48; 57]) H)
    as (A & _ & _ & B).
  split; [exact A | exact B].
Defined.

(** C6: "hello" as short text, the empty long text. *)
Lemma text_decoders_ascii_witness :
  is_ascii (str "hello") = true
  /\ @short_string tm (bytes_of [5; 104; 101; 108; 108; 111])
     = Ok (6, VUnicode (str "hello"))
  /\ @long_string tm (bytes_of [0; 0; 0; 0]) = Ok (4, VUnicode (str "")).
Proof.
  split; [reflexivity|]. split.
  - apply (proj1 (text_decoders_ascii tm (str "hello") [] eq_refl)).
    reflexivity.
  - apply (proj2 (text_decoders_ascii tm [] [] eq_refl)). reflexivity.
Defined.

(** C6 fails on the code: a length byte 1 followed by the byte 0xff. *)
Lemma text_not_ascii_raises :
  @short_string tm (bytes_of [1; 255]) = Raise UnicodeDecodeError
  /\ @long_string tm (bytes_of [0; 0; 0; 1; 255]) = Raise UnicodeDecodeError.
Proof.
  split; reflexivity.
Qed.

(** C7: the tag 'X'. *)
Lemma unknown_type_tag_witness :
  ~ In "X"%byte type_tags
  /\ _embedded_value gmtime_utc (bytes_of [88; 1; 2])
     = Raise (ValueError (str "Unknown type: X")).
Proof.
  assert (~ In "X"%byte type_tags) as H.
  { unfold type_tags. cbn [In]. intuition discriminate. }
  split; [exact H|].
  exact (unknown_type_tag tm gmtime_utc "X"%byte (bytes_of [1; 2]) H).
Defined.

(** C7 fails on the code: the exception is the message and nothing more;
    with the tag at offset 4 of an array buffer and with the tag at
    offset 5, the same exception comes out. *)
Lemma unknown_type_tag_no_offset :
  _embedded_value gmtime_utc (bytes_of [88])
  = Raise (ValueError (str "Unknown type: X"))
  /\ field_array gmtime_utc (bytes_of [0; 0; 0; 1; 88])
     = Raise (ValueError (str "Unknown type: X"))
  /\ field_array gmtime_utc (bytes_of [0; 0; 0; 2; 0; 88])
     = Raise (ValueError (str "Unknown type: X")).
Proof.
  split; [reflexivity|]. split; reflexivity.
Qed.

(** C8: a single NUL byte, and the empty buffer. *)
Lemma embedded_null_witness :
  _embedded_value gmtime_utc (bytes_of [0]) = Ok (0, VNone)
  /\ _embedded_value gmtime_utc [] = Ok (0, VNone).
Proof.
  split.
  - apply (proj1 (embedded_null tm gmtime_utc (bytes_of [0]))).
    right. exists []. reflexivity.
  - apply (proj1 (embedded_null tm gmtime_utc [])). left. reflexivity.
Defined.

(** C9: a name of the set, and the name the table of methods misspells. *)
Lemma by_type_dispatch_witness :
  by_type gmtime_utc (bytes_of [1]) "boolean" 3 = Ok (1, VBool true)
  /\ ~ In "boolen"%string type_names
  /\ by_type gmtime_utc (bytes_of [1]) "boolen" 3
     = Raise (ValueError (str "Unknown type: " ++ bytes_of [1])).
Proof.
  destruct (by_type_dispatch tm gmtime_utc (bytes_of [1]) 3)
    as (_ & B & _ & _ & _ & _ & _ & _ & _ & _ & U & _).
  assert (~ In "boolen"%string type_names) as H.
  { unfold type_names. cbn [In]. intuition discriminate. }
  split; [rewrite B; reflexivity|]. split; [exact H|].
  exact (U "boolen"%string H).
Defined.

(** C10: a table whose entries end beyond the declared region. *)
Lemma field_table_consumed_witness :
  field_table gmtime_utc (bytes_of [0; 0; 0; 1; 1; 107; 73; 0; 0; 0; 7])
  = Ok (5, VDict (<[str "k" := VInt 7]> ∅))
  /\ 5 = 4 + be_uint (slice (bytes_of [0; 0; 0; 1; 1; 107; 73; 0; 0; 0; 7])
                            0 4).
Proof.
  assert (field_table gmtime_utc
            (bytes_of [0; 0; 0; 1; 1; 107; 73; 0; 0; 0; 7])
          = Ok (5, VDict (<[str "k" := VInt 7]> ∅))) as H by reflexivity.
  split; [exact H|].
  exact (proj1 (proj2 (field_table_consumed tm gmtime_utc _ _ _ H))).
Defined.

(** * Further properties of the decoders *)

Section Further.

Variable struct_time : Type.
Variable gmtime : Z -> option struct_time.

Implicit Types (value rest : bytes) (v : val struct_time).

(** ** More on the primitive decoders *)

Lemma land_bit_mask (a p : Z) :
  0 <= p -> negb (Z.land a (Z.shiftl 1 p) =? 0) = Z.testbit a p.
Proof.
  intros Hp. rewrite Z.shiftl_1_l.
  destruct (Z.testbit a p) eqn:E.
  - destruct (Z.eqb_spec (Z.land a (2 ^ p)) 0) as [H0|]; [|reflexivity].
    exfalso. apply (f_equal (fun z => Z.testbit z p)) in H0.
    rewrite Z.land_spec, E, Z.pow2_bits_true, Z.bits_0 in H0 by lia.
    discriminate.
  - replace (Z.land a (2 ^ p)) with 0; [reflexivity|].
    symmetry. apply Z.bits_inj'. intros n Hn.
    rewrite Z.land_spec, Z.bits_0, Z.pow2_bits_eqb by lia.
    destruct (Z.eqb_spec p n) as [->|]; [now rewrite E|].
    apply andb_false_r.
Qed.

Lemma testbit_ord_high (b : byte) (p : Z) :
  8 <= p -> Z.testbit (ord b) p = false.
Proof.
  intros Hp. pose proof (ord_bound b) as B.
  destruct (Z.eq_dec (ord b) 0) as [->|Hne]; [apply Z.bits_0|].
  apply Z.bits_above_log2; [lia|].
  assert (Z.log2 (ord b) < 8); [|lia].
  apply Z.log2_lt_pow2; [lia|]. change (2 ^ 8) with 256. lia.
Qed.

(** X1. [bit] uses no byte and returns the bit of the first byte at
    [position], counted from the least significant; a position of 8 or
    more gives False, a negative one raises [ValueError]. *)
Theorem bit_tests_bit (b : byte) rest (position : Z) :
  (0 <= position ->
   @bit struct_time (b :: rest) position
   = Ok (0, VBool (Z.testbit (ord b) position)))
  /\ (8 <= position ->
      @bit struct_time (b :: rest) position = Ok (0, VBool false))
  /\ (position < 0 ->
      @bit struct_time (b :: rest) position
      = Raise (ValueError (str "negative shift count"))).
Proof.
  assert (forall p, 0 <= p ->
    @bit struct_time (b :: rest) p
    = Ok (0, VBool (Z.testbit (ord b) p))) as H.
  { intros p Hp. unfold bit. cbn [index0 bind].
    rewrite unpack_exact by reflexivity. cbn [bind].
    destruct (Z.ltb_spec p 0); [lia|].
    now rewrite be_uint_1, land_bit_mask. }
  split; [apply H|]. split.
  - intros Hp. rewrite H by lia. now rewrite testbit_ord_high.
  - intros Hp. unfold bit. cbn [index0 bind].
    rewrite unpack_exact by reflexivity. cbn [bind].
    destruct (Z.ltb_spec position 0); [reflexivity|lia].
Qed.

Lemma be_int_range (w : Z) (s : bytes) :
  0 < w -> be_uint s < 2 ^ w ->
  - 2 ^ (w - 1) <= be_int w s < 2 ^ (w - 1)
  /\ be_int w s mod 2 ^ w = be_uint s.
Proof.
  intros Hw Hs. pose proof (be_uint_bound s) as [H0 _].
  assert (2 ^ w = 2 * 2 ^ (w - 1)) as E.
  { rewrite <- Z.pow_succ_r by lia. f_equal. lia. }
  assert (0 < 2 ^ (w - 1)) by (apply Z.pow_pos_nonneg; lia).
  unfold be_int. cbv zeta.
  destruct (Z.ltb_spec (be_uint s) (2 ^ (w - 1))).
  - split; [lia|]. apply Z.mod_small. lia.
  - split; [lia|]. symmetry.
    apply (Z.mod_unique _ (2 ^ w) (-1)); lia.
Qed.

Lemma be_uint_take_bound value (n : nat) :
  (n <= length value)%nat ->
  0 <= be_uint (take n value) < 256 ^ Z.of_nat n.
Proof.
  intros H. pose proof (be_uint_bound (take n value)) as B.
  rewrite length_take in B.
  now replace (n `min` length value)%nat with n in B by lia.
Qed.

Lemma take_slice_0 value (n : nat) : slice value 0 (Z.of_nat n) = take n value.
Proof. now rewrite slice_0, Nat2Z.id. Qed.

(** X2. On a buffer that holds at least their width, the integer and
    float decoders return their width as the count whatever the bytes
    are; [long] and [longlong] give the two's complement reading, within
    the signed 32-bit and 64-bit ranges, [short] and [octet] the unsigned
    reading within 16 and 8 bits. *)
Theorem fixed_width_returns value :
  ((1 <= length value)%nat ->
   exists n, @octet struct_time value = Ok (1, VInt n)
             /\ 0 <= n < 2 ^ 8 /\ n = be_uint (take 1 value))
  /\ ((2 <= length value)%nat ->
      exists n, @short_int struct_time value = Ok (2, VInt n)
                /\ 0 <= n < 2 ^ 16 /\ n = be_uint (take 2 value))
  /\ ((4 <= length value)%nat ->
      exists n, @long_int struct_time value = Ok (4, VInt n)
                /\ - 2 ^ 31 <= n < 2 ^ 31
                /\ n mod 2 ^ 32 = be_uint (take 4 value))
  /\ ((8 <= length value)%nat ->
      exists n, @long_long_int struct_time value = Ok (8, VInt n)
                /\ - 2 ^ 63 <= n < 2 ^ 63
                /\ n mod 2 ^ 64 = be_uint (take 8 value))
  /\ ((4 <= length value)%nat ->
      exists bits, @floating_point struct_time value = Ok (4, VFloat bits)
                   /\ 0 <= bits < 2 ^ 32
                   /\ bits = be_uint (take 4 value)).
Proof.
  split; [|split; [|split; [|split]]]; intros Hlen.
  - destruct value as [|b tl]; cbn [length] in Hlen; [lia|].
    exists (ord b). split; [reflexivity|].
    split; [apply ord_bound | reflexivity].
  - exists (be_uint (take 2 value)). unfold short_int.
    rewrite slice_0. change (Z.to_nat 2) with 2%nat.
    rewrite unpack_from_exact by (rewrite length_take; lia).
    split; [reflexivity|]. split; [|reflexivity].
    apply (be_uint_take_bound value 2 Hlen).
  - exists (be_int 32 (take 4 value)). unfold long_int.
    rewrite slice_0. change (Z.to_nat 4) with 4%nat.
    rewrite unpack_exact by (rewrite length_take; lia).
    split; [reflexivity|].
    apply (be_int_range 32); [lia|].
    apply be_uint_4_bound. rewrite length_take. lia.
  - exists (be_int 64 (take 8 value)). unfold long_long_int.
    rewrite slice_0. change (Z.to_nat 8) with 8%nat.
    rewrite unpack_exact by (rewrite length_take; lia).
    split; [reflexivity|].
    apply (be_int_range 64); [lia|].
    pose proof (be_uint_take_bound value 8 Hlen) as B.
    change (256 ^ Z.of_nat 8) with (2 ^ 64) in B. lia.
  - exists (be_uint (take 4 value)). unfold floating_point, unpack_from.
    destruct (Z.leb_spec (Z.of_nat 4) (Z.of_nat (length value) - 0));
      [|lia].
    cbn [bind]. rewrite Z.add_0_l, (take_slice_0 value 4).
    split; [reflexivity|]. split; [|reflexivity].
    apply be_uint_4_bound. rewrite length_take. lia.
Qed.

Lemma slice_whole (p : bytes) (n : Z) :
  n = Z.of_nat (length p) -> slice p 0 n = p.
Proof.
  intros ->. rewrite <- (app_nil_r p) at 1. now apply slice_prefix.
Qed.

(** X3. A fixed-width decoder reads its width and no further: bytes that
    follow the first 1, 2, 4, 5 or 8 change neither the count nor the
    value, nor whether it raises. *)
Theorem fixed_width_prefix (p rest : bytes) :
  (length p = 1%nat ->
   @boolean struct_time (p ++ rest) = boolean p
   /\ @octet struct_time (p ++ rest) = octet p
   /\ forall position,
        @bit struct_time (p ++ rest) position = bit p position)
  /\ (length p = 2%nat ->
      @short_int struct_time (p ++ rest) = short_int p)
  /\ (length p = 4%nat ->
      @long_int struct_time (p ++ rest) = long_int p
      /\ @floating_point struct_time (p ++ rest) = floating_point p)
  /\ (length p = 5%nat ->
      @decimal struct_time (p ++ rest) = decimal p)
  /\ (length p = 8%nat ->
      @long_long_int struct_time (p ++ rest) = long_long_int p
      /\ timestamp gmtime (p ++ rest) = timestamp gmtime p).
Proof.
  split; [|split; [|split; [|split]]]; intros Hlen.
  - destruct p as [|b [|]]; try discriminate. repeat split.
  - unfold short_int. now rewrite slice_prefix, slice_whole by lia.
  - unfold long_int, floating_point.
    rewrite slice_prefix, slice_whole by lia.
    now rewrite unpack_from_prefix, unpack_from_exact.
  - destruct p as [|s [|b1 [|b2 [|b3 [|b4 [|]]]]]]; try discriminate.
    reflexivity.
  - unfold long_long_int, timestamp.
    now rewrite slice_prefix, slice_whole by lia.
Qed.

(** X4. What a text decoder returns, when it returns: the count is the
    length prefix plus its width, whether or not that many bytes were
    there; the text is the ascii bytes found after the prefix, at most
    as many as the prefix declares. *)
Theorem text_decoder_returns value (c : Z) v :
  (@short_string struct_time value = Ok (c, v) ->
   exists b tl s,
     value = b :: tl /\ c = ord b + 1
     /\ v = VUnicode s /\ s = take (Z.to_nat (ord b)) tl
     /\ is_ascii s = true /\ Z.of_nat (length s) <= c - 1)
  /\ (@long_string struct_time value = Ok (c, v) ->
      exists s,
        (4 <= length value)%nat /\ c = be_uint (take 4 value) + 4
        /\ v = VUnicode s
        /\ s = take (Z.to_nat (be_uint (take 4 value))) (drop 4 value)
        /\ is_ascii s = true /\ Z.of_nat (length s) <= c - 4).
Proof.
  split.
  - destruct value as [|b tl]; [discriminate|].
    unfold short_string. cbn [index0 bind].
    rewrite unpack_exact by reflexivity. cbn [bind]. rewrite be_uint_1.
    replace (slice (b :: tl) 1 (ord b + 1))
      with (take (Z.to_nat (ord b)) tl)
      by (unfold slice; now replace (ord b + 1 - 1) with (ord b) by lia).
    unfold unicode. fold (is_ascii (take (Z.to_nat (ord b)) tl)).
    destruct (is_ascii _) eqn:E; [|discriminate].
    cbn [bind]. intros [= <- <-].
    exists b, tl, (take (Z.to_nat (ord b)) tl).
    repeat split; try assumption.
    pose proof (ord_bound b). rewrite length_take. lia.
  - unfold long_string, unpack.
    destruct (Nat.eqb_spec (length (slice value 0 4)) 4) as [E4|];
      [|discriminate].
    cbn [bind]. rewrite slice_0 in *. change (Z.to_nat 4) with 4%nat in *.
    set (n := be_uint (take 4 value)).
    assert (0 <= n) by apply be_uint_bound.
    replace (slice value 4 (n + 4)) with (take (Z.to_nat n) (drop 4 value))
      by (unfold slice; now replace (n + 4 - 4) with n by lia).
    unfold unicode. fold (is_ascii (take (Z.to_nat n) (drop 4 value))).
    destruct (is_ascii _) eqn:E; [|discriminate].
    cbn [bind]. intros [= <- <-].
    exists (take (Z.to_nat n) (drop 4 value)).
    rewrite length_take in E4.
    repeat split; try assumption; try lia.
    rewrite length_take. lia.
Qed.

(** ** Compound decoders beyond the exact region *)

Implicit Types ev : bytes -> result (Z * val struct_time).

(** The array loop over encoded elements that all lie below [e]: it
    decodes them and goes on after the last. *)
Lemma field_array_loop_through ev items :
  forall n pre rest data e,
  (forall w rest', In w items ->
     ev (encode w ++ rest')
     = Ok (Z.of_nat (length (encode w)) - 1, denote gmtime w)) ->
  Z.of_nat (length pre + length (encode_items items)) <= e ->
  (length items <= n)%nat ->
  field_array_loop ev n (pre ++ encode_items items ++ rest)
    (Z.of_nat (length pre)) e data
  = field_array_loop ev (n - length items)
      (pre ++ encode_items items ++ rest)
      (Z.of_nat (length pre + length (encode_items items))) e
      (data ++ map (denote gmtime) items).
Proof.
  induction items as [|w items IH]; intros n pre rest data e Hev He Hn.
  - cbn [length map encode_items concat].
    rewrite Nat.sub_0_r, Nat.add_0_r, app_nil_r. reflexivity.
  - destruct n as [|n]; [cbn [length] in Hn; lia|].
    rewrite encode_items_cons in *. rewrite length_app in He.
    pose proof (encode_nonempty w).
    cbn [field_array_loop].
    destruct (Z.ltb_spec (Z.of_nat (length pre)) e); [|lia].
    rewrite <- (app_assoc (encode w)).
    rewrite slice_from_app by reflexivity.
    rewrite Hev by (left; reflexivity). cbn [bind].
    rewrite (app_assoc pre (encode w)).
    replace (Z.of_nat (length pre)
             + (Z.of_nat (length (encode w)) - 1 + 1))
      with (Z.of_nat (length (pre ++ encode w)))
      by (rewrite length_app; lia).
    rewrite IH.
    + cbn [length map Nat.sub]. rewrite !length_app, <- !app_assoc.
      cbn [app]. f_equal. lia.
    + intros x rest' Hx. apply Hev. now right.
    + rewrite length_app. lia.
    + cbn [length] in Hn. lia.
Qed.

(** The array loop past the end of the buffer: every turn gets the empty
    string, takes None from it and moves one byte on. *)
Lemma field_array_loop_pad ev n value offset e data :
  ev [] = Ok (0, VNone) ->
  Z.of_nat (length value) <= offset ->
  (Z.to_nat (e - offset) <= n)%nat ->
  field_array_loop ev n value offset e data
  = Ok (Z.max offset e,
        VList (data ++ replicate (Z.to_nat (e - offset)) VNone)).
Proof.
  intros Hev. revert offset data.
  induction n as [|n IH]; intros offset data Hoff Hn;
    cbn [field_array_loop]; destruct (Z.ltb_spec offset e); try lia.
  - replace (Z.to_nat (e - offset)) with 0%nat by lia.
    cbn [replicate]. rewrite app_nil_r. do 2 f_equal; lia.
  - unfold slice_from. rewrite drop_ge by lia. rewrite Hev. cbn [bind].
    rewrite IH by lia.
    replace (Z.to_nat (e - offset))
      with (S (Z.to_nat (e - (offset + (0 + 1))))) by lia.
    cbn [replicate]. rewrite <- app_assoc. cbn [app].
    do 2 f_equal; lia.
  - replace (Z.to_nat (e - offset)) with 0%nat by lia.
    cbn [replicate]. rewrite app_nil_r. do 2 f_equal; lia.
Qed.

(** X5. A field array whose declared region is longer than the buffer
    does not raise: after the well-formed values that are there, each
    missing byte of the region gives one None, and the count is 4 + L. *)
Theorem field_array_pads items (L : Z) :
  forallb (wf gmtime) items = true ->
  Z.of_nat (length (encode_items items)) <= L < 2 ^ 32 ->
  field_array gmtime (be_bytes 4 L ++ encode_items items)
  = Ok (4 + L,
        VList (map (denote gmtime) items
               ++ replicate
                    (Z.to_nat (L - Z.of_nat (length (encode_items items))))
                    VNone)).
Proof.
  intros Hwf HL. rewrite List.forallb_forall in Hwf.
  rewrite <- (app_nil_r (encode_items items)) at 1.
  unfold field_array, field_array_with.
  rewrite slice_prefix by (rewrite length_be_bytes; reflexivity).
  rewrite unpack_exact by apply length_be_bytes. cbn [bind].
  rewrite be_uint_be_bytes
    by (change (256 ^ Z.of_nat 4) with (2 ^ 32); lia).
  pose proof (field_array_loop_through (_embedded_value gmtime) items
                (Z.to_nat L) (be_bytes 4 L) [] [] (4 + L)) as T.
  rewrite length_be_bytes in T. change (Z.of_nat 4) with 4 in T.
  pose proof (length_items_le items).
  rewrite T.
  - rewrite field_array_loop_pad.
    + cbn [app]. do 2 f_equal; [lia|]. do 3 f_equal. lia.
    + reflexivity.
    + rewrite !length_app, length_be_bytes. cbn [length]. lia.
    + lia.
  - intros w rest' Hw. apply embedded_value_encoded. now apply Hwf.
  - lia.
  - lia.
Qed.

(** The table loop over encoded entries that all lie below [e]. *)
Lemma field_table_loop_through ev entries :
  forall n pre rest data e,
  (forall en, In en entries -> Z.of_nat (length en.1) < 256) ->
  (forall en rest', In en entries ->
     ev (encode en.2 ++ rest')
     = Ok (Z.of_nat (length (encode en.2)) - 1, denote gmtime en.2)) ->
  Z.of_nat (length pre + length (encode_entries entries)) <= e ->
  (length entries <= n)%nat ->
  field_table_loop ev n (pre ++ encode_entries entries ++ rest)
    (Z.of_nat (length pre)) e data
  = field_table_loop ev (n - length entries)
      (pre ++ encode_entries entries ++ rest)
      (Z.of_nat (length pre + length (encode_entries entries))) e
      (insert_all (map (fun en => (en.1, denote gmtime en.2)) entries)
                  data).
Proof.
  induction entries as [|[k w] entries IH];
    intros n pre rest data e Hk Hev He Hn.
  - cbn [length map encode_entries concat insert_all fold_left].
    rewrite Nat.sub_0_r, Nat.add_0_r. reflexivity.
  - destruct n as [|n]; [cbn [length] in Hn; lia|].
    rewrite encode_entries_cons in *.
    rewrite length_app, length_encode_entry in He. cbn [fst snd] in He.
    rewrite <- (app_assoc (encode_entry encode (k, w))).
    rewrite (field_table_loop_entry _ gmtime).
    + rewrite (app_assoc pre). rewrite IH.
      * cbn [length map Nat.sub insert_all fold_left fst snd].
        rewrite !length_app, <- !app_assoc. f_equal. lia.
      * intros en Hen. apply Hk. now right.
      * intros en rest' Hen. apply Hev. now right.
      * rewrite !length_app, length_encode_entry. cbn [fst snd]. lia.
      * cbn [length] in Hn. lia.
    + apply (Hk (k, w)). now left.
    + lia.
    + apply (Hev (k, w)). now left.
Qed.

Lemma wf_entries_keys entries :
  forallb (wf_entry gmtime) entries = true ->
  forall en, In en entries -> Z.of_nat (length en.1) < 256.
Proof.
  intros Hwf en Hen. rewrite List.forallb_forall in Hwf.
  apply Hwf in Hen. unfold wf_entry in Hen.
  apply andb_true_iff in Hen. destruct Hen as [Hen _].
  now apply Z.ltb_lt in Hen.
Qed.

Lemma wf_entries_values entries :
  forallb (wf_entry gmtime) entries = true ->
  forall en rest', In en entries ->
    _embedded_value gmtime (encode en.2 ++ rest')
    = Ok (Z.of_nat (length (encode en.2)) - 1, denote gmtime en.2).
Proof.
  intros Hwf en rest' Hen. rewrite List.forallb_forall in Hwf.
  apply embedded_value_encoded.
  apply Hwf in Hen. unfold wf_entry in Hen.
  apply andb_true_iff in Hen. tauto.
Qed.

(** X6. A field table whose declared region is longer than the buffer
    raises [struct.error] when it looks for the next key length, after
    the well-formed entries that are there; it returns nothing of them. *)
Theorem field_table_truncated entries (L : Z) :
  forallb (wf_entry gmtime) entries = true ->
  Z.of_nat (length (encode_entries entries)) < L < 2 ^ 32 ->
  field_table gmtime (be_bytes 4 L ++ encode_entries entries)
  = Raise struct_error.
Proof.
  intros Hwf HL.
  rewrite <- (app_nil_r (encode_entries entries)) at 1.
  unfold field_table, field_table_with.
  rewrite slice_prefix by (rewrite length_be_bytes; reflexivity).
  rewrite unpack_exact by apply length_be_bytes. cbn [bind].
  rewrite be_uint_be_bytes
    by (change (256 ^ Z.of_nat 4) with (2 ^ 32); lia).
  pose proof (field_table_loop_through (_embedded_value gmtime) entries
                (Z.to_nat L) (be_bytes 4 L) [] ∅ (4 + L)
                (wf_entries_keys entries Hwf)
                (wf_entries_values entries Hwf)) as T.
  rewrite length_be_bytes in T. change (Z.of_nat 4) with 4 in T.
  pose proof (length_entries_le entries).
  rewrite T by lia.
  destruct (Z.to_nat L - length entries)%nat as [|n] eqn:En; [lia|].
  cbn [field_table_loop].
  destruct (Z.ltb_spec (Z.of_nat (4 + length (encode_entries entries)))
              (4 + L)); [|lia].
  unfold unpack_from.
  rewrite !length_app, length_be_bytes. cbn [length].
  destruct (Z.leb_spec (Z.of_nat 1)
    (Z.of_nat (4 + (length (encode_entries entries) + 0))
     - Z.of_nat (4 + length (encode_entries entries)))); [lia|].
  reflexivity.
Qed.

(** X7. An exception raised inside a compound value comes out of the
    compound decoder unchanged, and nothing of what was decoded before
    it is returned: after well-formed elements that end inside the
    region, if [_embedded_value] raises on what follows, so does
    [field_array]; the same for [field_table] when the value after a
    key raises. *)
Theorem compound_error_propagates (L : Z) (e : exn) :
  0 <= L < 2 ^ 32 ->
  (forall items tail,
     forallb (wf gmtime) items = true ->
     Z.of_nat (length (encode_items items)) < L ->
     _embedded_value gmtime tail = Raise e ->
     field_array gmtime (be_bytes 4 L ++ encode_items items ++ tail)
     = Raise e)
  /\ (forall entries k tail,
        forallb (wf_entry gmtime) entries = true ->
        Z.of_nat (length (encode_entries entries)) < L ->
        Z.of_nat (length k) < 256 ->
        _embedded_value gmtime tail = Raise e ->
        field_table gmtime
          (be_bytes 4 L ++ encode_entries entries
           ++ byte_of (Z.of_nat (length k)) :: k ++ tail)
        = Raise e).
Proof.
  intros HL. split.
  - intros items tail Hwf Hlen He. rewrite List.forallb_forall in Hwf.
    unfold field_array, field_array_with.
    rewrite slice_prefix by (rewrite length_be_bytes; reflexivity).
    rewrite unpack_exact by apply length_be_bytes. cbn [bind].
    rewrite be_uint_be_bytes
      by (change (256 ^ Z.of_nat 4) with (2 ^ 32); lia).
    pose proof (field_array_loop_through (_embedded_value gmtime) items
                  (Z.to_nat L) (be_bytes 4 L) tail [] (4 + L)) as T.
    rewrite length_be_bytes in T. change (Z.of_nat 4) with 4 in T.
    pose proof (length_items_le items).
    rewrite T; [| |lia|lia].
    + destruct (Z.to_nat L - length items)%nat as [|n] eqn:En; [lia|].
      cbn [field_array_loop].
      destruct (Z.ltb_spec (Z.of_nat (4 + length (encode_items items)))
                  (4 + L)); [|lia].
      rewrite app_assoc.
      rewrite slice_from_app
        by (now rewrite length_app, length_be_bytes).
      now rewrite He.
    + intros w rest' Hw. apply embedded_value_encoded. now apply Hwf.
  - intros entries k tail Hwf Hlen Hk He.
    unfold field_table, field_table_with.
    rewrite slice_prefix by (rewrite length_be_bytes; reflexivity).
    rewrite unpack_exact by apply length_be_bytes. cbn [bind].
    rewrite be_uint_be_bytes
      by (change (256 ^ Z.of_nat 4) with (2 ^ 32); lia).
    pose proof (field_table_loop_through (_embedded_value gmtime) entries
                  (Z.to_nat L) (be_bytes 4 L)
                  (byte_of (Z.of_nat (length k)) :: k ++ tail) ∅ (4 + L)
                  (wf_entries_keys entries Hwf)
                  (wf_entries_values entries Hwf)) as T.
    rewrite length_be_bytes in T. change (Z.of_nat 4) with 4 in T.
    pose proof (length_entries_le entries).
    rewrite T by lia.
    destruct (Z.to_nat L - length entries)%nat as [|n] eqn:En; [lia|].
    cbn [field_table_loop].
    destruct (Z.ltb_spec (Z.of_nat (4 + length (encode_entries entries)))
                (4 + L)); [|lia].
    set (p := be_bytes 4 L ++ encode_entries entries).
    set (value := be_bytes 4 L ++ encode_entries entries
                  ++ byte_of (Z.of_nat (length k)) :: k ++ tail).
    assert (Z.of_nat (4 + length (encode_entries entries))
            = Z.of_nat (length p)) as ->
      by (unfold p; now rewrite length_app, length_be_bytes).
    rewrite (unpack_from_byte value p (byte_of (Z.of_nat (length k)))
               (k ++ tail))
      by (unfold value, p; now rewrite <- app_assoc).
    cbn [bind]. rewrite be_uint_1, ord_byte_of by lia.
    rewrite (slice_from_at value
               ((p ++ [byte_of (Z.of_nat (length k))]) ++ k) tail)
      by (try (unfold value, p; now rewrite <- !app_assoc);
          rewrite !length_app; cbn [length]; lia).
    now rewrite He.
Qed.

(** X8. The count of a well-formed value is where the next value starts:
    [_embedded_value] on an encoded value followed by anything returns
    the value and a count [c] such that, the tag byte added, the buffer
    from [c + 1] on is exactly what followed. *)
Theorem encoded_value_cursor (w : wire) rest :
  wf gmtime w = true ->
  exists c,
    _embedded_value gmtime (encode w ++ rest) = Ok (c, denote gmtime w)
    /\ 0 <= c
    /\ slice_from (encode w ++ rest) (c + 1) = rest.
Proof.
  intros Hwf. exists (Z.of_nat (length (encode w)) - 1).
  pose proof (encode_nonempty w).
  split; [now apply embedded_value_encoded|]. split; [lia|].
  apply slice_from_app. lia.
Qed.

(** The turns the array loop took, when it returns. *)
Lemma field_array_loop_turns ev n value offset e data c v :
  field_array_loop ev n value offset e data = Ok (c, v) ->
  exists turns,
    array_turns ev value e offset turns
    /\ c = stop_offset offset turns
    /\ v = VList (data ++ map snd turns).
Proof.
  revert offset data.
  induction n as [|n IH]; intros offset data; cbn [field_array_loop];
    destruct (Z.ltb_spec offset e); try discriminate.
  - intros [= <- <-]. exists []. cbn. now rewrite app_nil_r.
  - destruct (ev (slice_from value offset)) as [[c' r]| |] eqn:E;
      cbn [bind]; try discriminate.
    intros (turns & Ht & -> & ->)%IH. exists ((c', r) :: turns).
    cbn [array_turns stop_offset fold_left map fst snd].
    rewrite <- app_assoc. auto.
  - intros [= <- <-]. exists []. cbn. now rewrite app_nil_r.
Qed.

(** Every turn moves the offset, so the turns are no more than the bytes
    between the offset and the end. *)
Lemma array_turns_length ev value e turns :
  (forall x c' r, ev x = Ok (c', r) -> 0 <= c') ->
  forall offset,
  array_turns ev value e offset turns ->
  Z.of_nat (length turns) <= Z.max 0 (e - offset)
  /\ Z.of_nat (length turns) <= stop_offset offset turns - offset
  /\ e <= stop_offset offset turns.
Proof.
  intros Hev. induction turns as [|[c' r] turns IH]; intros offset;
    cbn [array_turns length stop_offset fold_left fst].
  - lia.
  - intros (Hlt & E & Ht). apply Hev in E.
    destruct (IH _ Ht) as (H1 & H2 & H3). unfold stop_offset in *. lia.
Qed.

(** The array loop along given turns. *)
Lemma field_array_loop_of_turns ev value e turns :
  forall n offset data,
  array_turns ev value e offset turns ->
  (length turns <= n)%nat ->
  field_array_loop ev n value offset e data
  = Ok (stop_offset offset turns, VList (data ++ map snd turns)).
Proof.
  induction turns as [|[c' r] turns IH]; intros n offset data;
    cbn [array_turns length stop_offset fold_left map fst snd].
  - intros He _. rewrite field_array_loop_done by lia.
    now rewrite app_nil_r.
  - intros (Hlt & E & Ht) Hn. destruct n as [|n]; [lia|].
    cbn [field_array_loop].
    destruct (Z.ltb_spec offset e); [|lia].
    rewrite E. cbn [bind]. rewrite (IH n) by (assumption || lia).
    now rewrite <- app_assoc.
Qed.

(** X9. [field_array] returns exactly when the buffer holds the 4-byte
    prefix and every turn of the loop decodes its element: a turn
    starts at an offset below 4 + L, decodes one value there with
    [_embedded_value] and moves on by the count of that value plus one.
    The count returned is the offset reached after the last turn, the
    first at 4 + L or beyond, and not 4 + L itself; the list holds the
    values of the turns in order, one for each turn, so at most one for
    each byte counted after the prefix. *)
Theorem field_array_returns value (c : Z) v :
  (field_array gmtime value = Ok (c, v) <->
   (4 <= length value)%nat
   /\ exists turns,
        array_turns (_embedded_value gmtime) value
          (4 + be_uint (take 4 value)) 4 turns
        /\ c = stop_offset 4 turns
        /\ v = VList (map snd turns))
  /\ (field_array gmtime value = Ok (c, v) ->
      4 + be_uint (take 4 value) <= c
      /\ exists l, v = VList l /\ Z.of_nat (length l) <= c - 4).
Proof.
  assert (forall x c' r,
    _embedded_value gmtime x = Ok (c', r) -> 0 <= c') as Hnn.
  { intros x c' r. unfold _embedded_value.
    apply embedded_value_fuel_nonneg. }
  assert (field_array gmtime value = Ok (c, v) ->
    (4 <= length value)%nat
    /\ exists turns,
         array_turns (_embedded_value gmtime) value
           (4 + be_uint (take 4 value)) 4 turns
         /\ c = stop_offset 4 turns
         /\ v = VList (map snd turns)) as Hfwd.
  { unfold field_array, field_array_with, unpack.
    destruct (Nat.eqb_spec (length (slice value 0 4)) 4) as [E|E];
      cbn [bind]; [|discriminate].
    rewrite slice_0 in *. change (Z.to_nat 4) with 4%nat in *.
    intros (turns & Ht & -> & ->)%field_array_loop_turns.
    rewrite length_take in E. split; [lia|]. now exists turns. }
  split; [split; [exact Hfwd|]|].
  - intros (Hlen & turns & Ht & -> & ->).
    unfold field_array, field_array_with.
    rewrite slice_0. change (Z.to_nat 4) with 4%nat.
    rewrite unpack_exact by (rewrite length_take; lia). cbn [bind].
    apply (field_array_loop_of_turns _ _ _ turns _ 4 []); [exact Ht|].
    destruct (array_turns_length _ _ _ turns Hnn 4 Ht) as (H1 & _).
    pose proof (be_uint_bound (take 4 value)). lia.
  - intros (_ & turns & Ht & -> & ->)%Hfwd.
    destruct (array_turns_length _ _ _ turns Hnn 4 Ht) as (_ & H2 & H3).
    split; [exact H3|]. exists (map snd turns).
    split; [reflexivity|]. rewrite length_map. lia.
Qed.

(** ** The table of methods and the dispatcher *)

Lemma METHODS_keys (name : string) :
  ~ In name ["bit"; "boolen"; "long"; "longlong"; "longstr"; "octet";
             "short"; "shortstr"; "table"; "timestamp"]%string ->
  METHODS gmtime !! name = None.
Proof.
  intros H. unfold METHODS. apply not_elem_of_list_to_map_1.
  intros Hin. apply H. apply list_elem_of_In in Hin. exact Hin.
Qed.

(** X10. [METHODS] and [by_type] agree on nine names: for every key of
    the table but "boolen", [by_type] returns what the decoder stored
    under that key returns.  The booleans are where they part: the
    table has the key "boolen" and no key "boolean", [by_type] knows
    "boolean" and raises on "boolen". *)
Theorem methods_and_by_type value (offset : Z) :
  (forall name f,
     METHODS gmtime !! name = Some (Plain f) ->
     name <> "boolen"%string ->
     by_type gmtime value name offset = f value)
  /\ (forall name f,
        METHODS gmtime !! name = Some (Positional f) ->
        by_type gmtime value name offset = f value offset)
  /\ METHODS gmtime !! "boolean"%string = None
  /\ METHODS gmtime !! "boolen"%string = Some (Plain boolean)
  /\ by_type gmtime value "boolean" offset = boolean value
  /\ by_type gmtime value "boolen" offset
     = Raise (ValueError (str "Unknown type: " ++ value)).
Proof.
  assert (forall name m,
    METHODS gmtime !! name = Some m ->
    In (name, m)
       [("bit", Positional bit); ("boolen", Plain boolean);
        ("long", Plain long_int); ("longlong", Plain long_long_int);
        ("longstr", Plain long_string); ("octet", Plain octet);
        ("short", Plain short_int); ("shortstr", Plain short_string);
        ("table", Plain (field_table gmtime));
        ("timestamp", Plain (timestamp gmtime))]%string) as Hin.
  { intros name m H. apply list_elem_of_In.
    apply elem_of_list_to_map_2. exact H. }
  split; [|split; [|split; [|split; [|split]]]]; try reflexivity.
  - intros name f H Hne. apply Hin in H. cbn [In] in H.
    repeat (destruct H as [H|H];
            [injection H as <- ?; subst; try discriminate;
             try reflexivity; congruence|]).
    destruct H.
  - intros name f H. apply Hin in H. cbn [In] in H.
    repeat (destruct H as [H|H];
            [injection H as <- ?; subst; try discriminate;
             try reflexivity|]).
    destruct H.
Qed.

(** ** The order of the entries of a table *)

Lemma insert_all_list_to_map {V} (kvs : list (bytes * V)) :
  insert_all kvs ∅ = list_to_map (rev kvs).
Proof.
  induction kvs as [|kv kvs IH] using rev_ind; [reflexivity|].
  rewrite insert_all_snoc, rev_app_distr, IH. reflexivity.
Qed.

Lemma insert_all_permutation {V} (kvs1 kvs2 : list (bytes * V)) :
  Permutation kvs1 kvs2 -> NoDup (map fst kvs1) ->
  insert_all kvs1 ∅ = insert_all kvs2 ∅.
Proof.
  intros HP Hnd. rewrite !insert_all_list_to_map.
  apply list_to_map_proper.
  - change (NoDup (map fst (rev kvs1))).
    assert (Permutation (map fst (rev kvs1)) (map fst kvs1)) as ->
      by apply Permutation_map, Permutation_sym, Permutation_rev.
    exact Hnd.
  - rewrite <- !Permutation_rev. exact HP.
Qed.

Lemma length_encode_entries_permutation entries1 entries2 :
  Permutation entries1 entries2 ->
  length (encode_entries entries1) = length (encode_entries entries2).
Proof.
  induction 1 as [|x l l' _ IH|x y l|l l' l'' _ IH1 _ IH2].
  - reflexivity.
  - rewrite !encode_entries_cons, !length_app. lia.
  - rewrite !encode_entries_cons, !length_app. lia.
  - congruence.
Qed.

(** X11. The order of the entries does not matter when the keys are all
    different: two buffers whose regions hold the same well-formed
    entries in different orders decode to the same count and the same
    mapping. *)
Theorem field_table_order_irrelevant entries1 entries2 rest1 rest2 :
  Permutation entries1 entries2 ->
  NoDup (map fst entries1) ->
  forallb (wf_entry gmtime) entries1 = true ->
  Z.of_nat (length (encode_entries entries1)) < 2 ^ 32 ->
  field_table gmtime
    (be_bytes 4 (Z.of_nat (length (encode_entries entries1)))
     ++ encode_entries entries1 ++ rest1)
  = field_table gmtime
      (be_bytes 4 (Z.of_nat (length (encode_entries entries2)))
       ++ encode_entries entries2 ++ rest2).
Proof.
  intros HP Hnd Hwf Hlen.
  assert (forallb (wf_entry gmtime) entries2 = true) as Hwf2.
  { rewrite List.forallb_forall in *. intros en Hen. apply Hwf.
    apply (Permutation_in _ (Permutation_sym HP) Hen). }
  pose proof (length_encode_entries_permutation _ _ HP) as El.
  rewrite (field_table_exact _ gmtime entries1 rest1)
    by first [now apply wf_entries_keys
             | now apply wf_entries_values | lia].
  rewrite (field_table_exact _ gmtime entries2 rest2)
    by first [now apply wf_entries_keys
             | now apply wf_entries_values | lia].
  rewrite El. do 3 f_equal.
  apply insert_all_permutation.
  - now apply Permutation_map.
  - rewrite map_map. cbn [fst]. exact Hnd.
Qed.

(** X15. An entry cut off by the end of the buffer inside its key, or
    right after it, raises nothing when it is the last of the region:
    the key is what is left of it, its value is None, and the table is
    returned with count 4 + L. *)
Theorem field_table_key_clipped entries (n : Z) (kpart : bytes) (L : Z) :
  forallb (wf_entry gmtime) entries = true ->
  Z.of_nat (length kpart) <= n < 256 ->
  Z.of_nat (length (encode_entries entries)) < L ->
  L <= Z.of_nat (length (encode_entries entries)) + n + 2 ->
  L < 2 ^ 32 ->
  field_table gmtime
    (be_bytes 4 L ++ encode_entries entries ++ byte_of n :: kpart)
  = Ok (4 + L,
        VDict (<[kpart := VNone]>
                 (insert_all
                    (map (fun en => (en.1, denote gmtime en.2)) entries)
                    ∅))).
Proof.
  intros Hwf Hn Hlo Hhi HL.
  unfold field_table, field_table_with.
  rewrite slice_prefix by (rewrite length_be_bytes; reflexivity).
  rewrite unpack_exact by apply length_be_bytes. cbn [bind].
  rewrite be_uint_be_bytes
    by (change (256 ^ Z.of_nat 4) with (2 ^ 32); lia).
  pose proof (field_table_loop_through (_embedded_value gmtime) entries
                (Z.to_nat L) (be_bytes 4 L) (byte_of n :: kpart) ∅ (4 + L)
                (wf_entries_keys entries Hwf)
                (wf_entries_values entries Hwf)) as T.
  rewrite length_be_bytes in T. change (Z.of_nat 4) with 4 in T.
  pose proof (length_entries_le entries).
  rewrite T by lia.
  destruct (Z.to_nat L - length entries)%nat as [|m] eqn:Em; [lia|].
  cbn [field_table_loop].
  destruct (Z.ltb_spec (Z.of_nat (4 + length (encode_entries entries)))
              (4 + L)); [|lia].
  set (p := be_bytes 4 L ++ encode_entries entries).
  set (value := be_bytes 4 L ++ encode_entries entries
                ++ byte_of n :: kpart).
  assert (value = p ++ byte_of n :: kpart) as Ev
    by (unfold value, p; now rewrite <- app_assoc).
  assert (Z.of_nat (4 + length (encode_entries entries))
          = Z.of_nat (length p)) as ->
    by (unfold p; now rewrite length_app, length_be_bytes).
  rewrite (unpack_from_byte value p (byte_of n) kpart Ev).
  cbn [bind]. rewrite be_uint_1, ord_byte_of by lia.
  replace (slice value (Z.of_nat (length p) + 1)
             (Z.of_nat (length p) + 1 + n)) with kpart.
  2: { rewrite Ev. change (p ++ byte_of n :: kpart)
         with (p ++ [byte_of n] ++ kpart).
       rewrite app_assoc. symmetry. apply slice_clip.
       - rewrite length_app. cbn [length]. lia.
       - lia. }
  replace (slice_from value (Z.of_nat (length p) + 1 + n)) with (@nil byte).
  2: { unfold slice_from. rewrite drop_ge; [reflexivity|].
       rewrite Ev, length_app. cbn [length]. lia. }
  change (_embedded_value gmtime []) with (@Ok (Z * val struct_time)
                                              (0, VNone)).
  cbn [bind].
  rewrite field_table_loop_done; [reflexivity|].
  unfold p. rewrite length_app, length_be_bytes. lia.
Qed.

(** ** Byte accounting of the self-describing decoder *)

Ltac tag_tests :=
  rewrite _embedded_value_eq;
  rewrite ?tag_is_ne by discriminate;
  rewrite tag_is_refl; cbv beta iota.

Ltac through_binds :=
  repeat (destruct (_ : result bytes); cbn [bind]; try discriminate).

Lemma short_string_count value (c : Z) v :
  @short_string struct_time value = Ok (c, v) ->
  c = be_uint (take 1 value) + 1.
Proof.
  destruct value as [|b tl]; [discriminate|].
  unfold short_string. cbn [index0 bind].
  rewrite unpack_exact by reflexivity. cbn [bind].
  destruct (unicode _); cbn [bind]; try discriminate.
  now intros [= <- _].
Qed.

Lemma long_string_count value (c : Z) v :
  @long_string struct_time value = Ok (c, v) ->
  c = be_uint (take 4 value) + 4.
Proof.
  unfold long_string, unpack.
  destruct (Nat.eqb (length (slice value 0 4)) 4); [|discriminate].
  cbn [bind]. rewrite slice_0. change (Z.to_nat 4) with 4%nat.
  destruct (unicode _); cbn [bind]; try discriminate.
  now intros [= <- _].
Qed.

Lemma compound_counts value (c : Z) v :
  (field_table gmtime value = Ok (c, v) ->
   c = 4 + be_uint (take 4 value))
  /\ (field_array gmtime value = Ok (c, v) ->
      4 + be_uint (take 4 value) <= c).
Proof.
  unfold field_table, field_table_with, field_array, field_array_with,
    unpack.
  rewrite slice_0. change (Z.to_nat 4) with 4%nat.
  destruct (Nat.eqb (length (take 4 value)) 4); cbn [bind];
    split; try discriminate.
  - now intros [-> _]%field_table_loop_ok.
  - now intros [Hc _]%field_array_loop_ok.
Qed.

(** X13. The count [_embedded_value] returns is fixed by the tag: 4 for
    'I' and 'f', 8 for 'L' and 'T', 1 for 't', 5 for 'D', 2 for 'U', 0
    for NUL; for 's' and 'S' the length prefix plus 1 or 4, for 'F' the
    region length plus 4, and for 'A' at least that. *)
Theorem embedded_value_count (b : byte) rest (c : Z) v :
  _embedded_value gmtime (b :: rest) = Ok (c, v) ->
  (b = "I"%byte \/ b = "f"%byte -> c = 4)
  /\ (b = "L"%byte \/ b = "T"%byte -> c = 8)
  /\ (b = "t"%byte -> c = 1)
  /\ (b = "D"%byte -> c = 5)
  /\ (b = "U"%byte -> c = 2)
  /\ (b = x00 -> c = 0)
  /\ (b = "s"%byte -> c = be_uint (take 1 rest) + 1)
  /\ (b = "S"%byte -> c = be_uint (take 4 rest) + 4)
  /\ (b = "F"%byte -> c = 4 + be_uint (take 4 rest))
  /\ (b = "A"%byte -> 4 + be_uint (take 4 rest) <= c).
Proof.
  intros H.
  repeat match goal with |- _ /\ _ => split end.
  - intros [->| ->]; revert H; tag_tests.
    + unfold long_int. through_binds. now intros [= <- _].
    + unfold floating_point. through_binds. now intros [= <- _].
  - intros [->| ->]; revert H; tag_tests.
    + unfold long_long_int. through_binds. now intros [= <- _].
    + unfold timestamp. through_binds.
      destruct (gmtime _); [|discriminate]. now intros [= <- _].
  - intros ->; revert H; tag_tests.
    unfold boolean. through_binds. now intros [= <- _].
  - intros ->; revert H; tag_tests.
    unfold decimal. through_binds. now intros [= <- _].
  - intros ->; revert H; tag_tests.
    unfold short_int. through_binds. now intros [= <- _].
  - intros ->; revert H; tag_tests. now intros [= <- _].
  - intros ->; revert H; tag_tests. apply short_string_count.
  - intros ->; revert H; tag_tests. apply long_string_count.
  - intros ->; revert H; tag_tests. apply compound_counts.
  - intros ->; revert H; tag_tests. apply compound_counts.
Qed.

(** X14. A type tag and a type name that stand for the same type reach
    the same decoder: [_embedded_value] on the tag followed by a payload
    returns what [by_type] returns on the payload under the name. *)
Theorem tags_and_names value (offset : Z) :
  _embedded_value gmtime ("F"%byte :: value)
  = by_type gmtime value "table" offset
  /\ _embedded_value gmtime ("I"%byte :: value)
     = by_type gmtime value "long" offset
  /\ _embedded_value gmtime ("L"%byte :: value)
     = by_type gmtime value "longlong" offset
  /\ _embedded_value gmtime ("t"%byte :: value)
     = by_type gmtime value "boolean" offset
  /\ _embedded_value gmtime ("T"%byte :: value)
     = by_type gmtime value "timestamp" offset
  /\ _embedded_value gmtime ("s"%byte :: value)
     = by_type gmtime value "shortstr" offset
  /\ _embedded_value gmtime ("S"%byte :: value)
     = by_type gmtime value "longstr" offset
  /\ _embedded_value gmtime ("U"%byte :: value)
     = by_type gmtime value "short" offset.
Proof.
  repeat split; tag_tests; reflexivity.
Qed.

End Further.

(** * Worked examples of the further properties *)

(** X1: the byte 0b101 at positions 2, 9 and -1. *)
Lemma bit_tests_bit_witness :
  @bit tm (bytes_of [5; 0]) 2 = Ok (0, VBool true)
  /\ @bit tm (bytes_of [5; 0]) 9 = Ok (0, VBool false)
  /\ @bit tm (bytes_of [5; 0]) (-1)
     = Raise (ValueError (str "negative shift count")).
Proof.
  destruct (bit_tests_bit tm (byte_of 5) (bytes_of [0]) 2) as (A & _).
  destruct (bit_tests_bit tm (byte_of 5) (bytes_of [0]) 9) as (_ & B & _).
  destruct (bit_tests_bit tm (byte_of 5) (bytes_of [0]) (-1))
    as (_ & _ & C).
  split; [apply A; lia|]. split; [apply B; lia | apply C; lia].
Defined.

(** X2: ff ff ff fe read as a signed 32-bit number. *)
Lemma fixed_width_returns_witness :
  (4 <= length (bytes_of [255; 255; 255; 254; 1]%Z))%nat
  /\ exists n,
       @long_int tm (bytes_of [255; 255; 255; 254; 1]) = Ok (4, VInt n)
       /\ - 2 ^ 31 <= n < 2 ^ 31
       /\ n mod 2 ^ 32 = 4294967294.
Proof.
  assert (4 <= length (bytes_of [255; 255; 255; 254; 1]%Z))%nat as H
    by (cbn; lia).
  split; [exact H|].
  destruct (fixed_width_returns tm (bytes_of [255; 255; 255; 254; 1]))
    as (_ & _ & L & _).
  exact (L H).
Defined.

(** X3: a 32-bit number with and without bytes after it. *)
Lemma fixed_width_prefix_witness :
  length (bytes_of [0; 0; 0; 7]) = 4%nat
  /\ @long_int tm (bytes_of [0; 0; 0; 7; 9; 9])
     = long_int (bytes_of [0; 0; 0; 7]).
Proof.
  split; [reflexivity|].
  destruct (fixed_width_prefix tm gmtime_utc (bytes_of [0; 0; 0; 7])
              (bytes_of [9; 9])) as (_ & _ & H & _).
  exact (proj1 (H eq_refl)).
Defined.

(** X4: a short text that declares three bytes and has one. *)
Lemma text_decoder_returns_witness :
  @short_string tm (bytes_of [3; 104]) = Ok (4, VUnicode (str "h"))
  /\ exists b tl s,
       bytes_of [3; 104] = b :: tl /\ 4 = ord b + 1
       /\ @VUnicode tm (str "h") = VUnicode s
       /\ s = take (Z.to_nat (ord b)) tl
       /\ is_ascii s = true /\ Z.of_nat (length s) <= 4 - 1.
Proof.
  assert (@short_string tm (bytes_of [3; 104])
          = Ok (4, VUnicode (str "h"))) as H by reflexivity.
  split; [exact H|].
  exact (proj1 (text_decoder_returns tm (bytes_of [3; 104]) 4
                  (VUnicode (str "h"))) H).
Defined.

(** X5: a region of six bytes of which four are there. *)
Lemma field_array_pads_witness :
  forallb (wf gmtime_utc) [WShortStr (str "hi")] = true
  /\ Z.of_nat (length (encode_items [WShortStr (str "hi")])) <= 6 < 2 ^ 32
  /\ field_array gmtime_utc (bytes_of [0; 0; 0; 6; 115; 2; 104; 105])
     = Ok (10, VList [VUnicode (str "hi"); VNone; VNone]).
Proof.
  assert (Z.of_nat (length (encode_items [WShortStr (str "hi")]))
          <= 6 < 2 ^ 32) as H by (split; [cbn; lia | reflexivity]).
  split; [reflexivity|]. split; [exact H|].
  exact (field_array_pads tm gmtime_utc [WShortStr (str "hi")] 6
           eq_refl H).
Defined.

(** X6: a region of nine bytes of which seven are there. *)
Lemma field_table_truncated_witness :
  forallb (wf_entry gmtime_utc) [(str "k", WLong 7)] = true
  /\ Z.of_nat (length (encode_entries [(str "k", WLong 7)])) < 9 < 2 ^ 32
  /\ field_table gmtime_utc
       (bytes_of [0; 0; 0; 9; 1; 107; 73; 0; 0; 0; 7])
     = Raise struct_error.
Proof.
  assert (Z.of_nat (length (encode_entries [(str "k", WLong 7)]))
          < 9 < 2 ^ 32) as H by (split; [cbn; lia | reflexivity]).
  split; [reflexivity|]. split; [exact H|].
  exact (field_table_truncated tm gmtime_utc [(str "k", WLong 7)] 9
           eq_refl H).
Defined.

(** X7: an unknown tag after a null element, and after a key. *)
Lemma compound_error_propagates_witness :
  _embedded_value gmtime_utc (bytes_of [88])
  = Raise (ValueError (str "Unknown type: X"))
  /\ field_array gmtime_utc (bytes_of [0; 0; 0; 6; 0; 88])
     = Raise (ValueError (str "Unknown type: X"))
  /\ field_table gmtime_utc
       (bytes_of [0; 0; 0; 6; 1; 97; 0; 1; 98; 88])
     = Raise (ValueError (str "Unknown type: X")).
Proof.
  assert (0 <= 6 < 2 ^ 32) as HL by (split; [lia | reflexivity]).
  assert (_embedded_value gmtime_utc (bytes_of [88])
          = Raise (ValueError (str "Unknown type: X"))) as He
    by reflexivity.
  destruct (compound_error_propagates tm gmtime_utc 6
              (ValueError (str "Unknown type: X")) HL) as [A T].
  split; [exact He|]. split.
  - apply (A [WNull] (bytes_of [88])); [reflexivity | cbn; lia | exact He].
  - apply (T [(str "a", WNull)] (str "b") (bytes_of [88]));
      [reflexivity | cbn; lia | cbn; lia | exact He].
Defined.

(** X8: an array of two texts followed by one byte. *)
Lemma encoded_value_cursor_witness :
  wf gmtime_utc (WArray two_texts) = true
  /\ exists c,
       _embedded_value gmtime_utc (encode (WArray two_texts) ++ bytes_of [9])
       = Ok (c, denote gmtime_utc (WArray two_texts))
       /\ 0 <= c
       /\ slice_from (encode (WArray two_texts) ++ bytes_of [9]) (c + 1)
          = bytes_of [9].
Proof.
  split; [reflexivity|].
  exact (encoded_value_cursor tm gmtime_utc (WArray two_texts)
           (bytes_of [9]) eq_refl).
Defined.

(** X9: a region of one byte whose only value takes five: one turn, from
    offset 4 to offset 9. *)
Lemma field_array_returns_witness :
  field_array gmtime_utc (bytes_of [0; 0; 0; 1; 73; 0; 0; 0; 7])
  = Ok (9, VList [VInt 7])
  /\ exists turns,
       array_turns (_embedded_value gmtime_utc)
         (bytes_of [0; 0; 0; 1; 73; 0; 0; 0; 7])
         (4 + be_uint (take 4 (bytes_of [0; 0; 0; 1; 73; 0; 0; 0; 7])))
         4 turns
       /\ 9 = stop_offset 4 turns
       /\ @VList tm [VInt 7] = VList (map snd turns).
Proof.
  assert (field_array gmtime_utc (bytes_of [0; 0; 0; 1; 73; 0; 0; 0; 7])
          = Ok (9, VList [VInt 7])) as H by reflexivity.
  split; [exact H|].
  exact (proj2 (proj1 (proj1 (field_array_returns tm gmtime_utc _ _ _))
                  H)).
Defined.

(** X10: the key "long". *)
Lemma methods_and_by_type_witness :
  METHODS gmtime_utc !! "long"%string = Some (Plain long_int)
  /\ "long"%string <> "boolen"%string
  /\ by_type gmtime_utc (bytes_of [0; 0; 0; 7]) "long" 0
     = long_int (bytes_of [0; 0; 0; 7]).
Proof.
  assert (METHODS gmtime_utc !! "long"%string = Some (Plain long_int))
    as H by reflexivity.
  assert ("long"%string <> "boolen"%string) as Hne by discriminate.
  split; [exact H|]. split; [exact Hne|].
  exact (proj1 (methods_and_by_type tm gmtime_utc (bytes_of [0; 0; 0; 7]) 0)
           "long"%string long_int H Hne).
Defined.

(** X11: two entries, in either order. *)
Lemma field_table_order_irrelevant_witness :
  Permutation [(str "a", WLong 1); (str "b", WLong 2)]
              [(str "b", WLong 2); (str "a", WLong 1)]
  /\ NoDup (map fst [(str "a", WLong 1); (str "b", WLong 2)])
  /\ field_table gmtime_utc
       (bytes_of [0; 0; 0; 14; 1; 97; 73; 0; 0; 0; 1;
                  1; 98; 73; 0; 0; 0; 2])
     = field_table gmtime_utc
         (bytes_of [0; 0; 0; 14; 1; 98; 73; 0; 0; 0; 2;
                    1; 97; 73; 0; 0; 0; 1; 9]).
Proof.
  assert (Permutation [(str "a", WLong 1); (str "b", WLong 2)]
                      [(str "b", WLong 2); (str "a", WLong 1)]) as HP
    by apply perm_swap.
  assert (NoDup (map fst [(str "a", WLong 1); (str "b", WLong 2)])) as Hnd.
  { cbn [map fst]. apply NoDup_cons. split.
    - intros Hin. apply list_elem_of_singleton in Hin. discriminate.
    - apply NoDup_singleton. }
  split; [exact HP|]. split; [exact Hnd|].
  exact (field_table_order_irrelevant tm gmtime_utc _ _ [] (bytes_of [9])
           HP Hnd eq_refl eq_refl).
Defined.

(** X13: a tagged 32-bit number. *)
Lemma embedded_value_count_witness :
  _embedded_value gmtime_utc (bytes_of [73; 0; 0; 0; 7; 1]) = Ok (4, VInt 7)
  /\ 4 = 4.
Proof.
  assert (_embedded_value gmtime_utc (bytes_of [73; 0; 0; 0; 7; 1])
          = Ok (4, VInt 7)) as H by reflexivity.
  split; [exact H|].
  exact (proj1 (embedded_value_count tm gmtime_utc "I"%byte
                  (bytes_of [0; 0; 0; 7; 1]) 4 (VInt 7) H)
           (or_introl eq_refl)).
Defined.

(** X15: the last entry declares a key of five bytes and has two. *)
Lemma field_table_key_clipped_witness :
  forallb (wf_entry gmtime_utc) [(str "a", WNull)] = true
  /\ Z.of_nat (length (str "bc")) <= 5 < 256
  /\ field_table gmtime_utc (bytes_of [0; 0; 0; 9; 1; 97; 0; 5; 98; 99])
     = Ok (13, VDict (<[str "bc" := VNone]> (<[str "a" := VNone]> ∅))).
Proof.
  assert (Z.of_nat (length (str "bc")) <= 5 < 256) as H by (cbn; lia).
  split; [reflexivity|]. split; [exact H|].
  apply (field_table_key_clipped tm gmtime_utc [(str "a", WNull)] 5
           (str "bc") 9 eq_refl H); cbn; lia.
Defined.
